(** * NotionClone: the page store of [src/components/NotionClone.tsx]

    The component keeps an ordered collection of pages and the id of the
    selected page in React state, mirrors the collection into one
    [localStorage] slot and reloads it when it mounts.  This development
    embeds the handlers and effects of the component as functions over an
    explicit world (React state, the storage slot, the console and the
    clock) and proves the properties the specification states about them.

    React renders between two events of the user, so a handler closes over
    the state the event before it left: a handler reads the world it runs
    in.  A state setter acts on the world at once; no handler reads a
    state after it set it, except that [deletePage] filters the [pages] of
    its render after a blur may have set them, which the embedding reads
    first.  The effects that depend on [pages] run in the render after a
    handler that set them. *)

From Stdlib Require Import ZArith String Ascii List Bool Lia DecimalString.
From Stdlib Require DecimalPos DecimalZ.
Import ListNotations.
Local Open Scope string_scope.
Local Open Scope Z_scope.

(** ** JavaScript values

    What [JSON.parse] can return.  The component casts the parsed value to
    [Page[]] without checking it, so the fields of a page hold whatever
    the slot supplied; [undefined] (an absent property) is the [None] of
    [option JSValue].  Numbers are integers, as [Date.now()] returns them:
    the component computes with no number it loads, it only asks whether
    it is zero. *)

Unset Elimination Schemes.
Inductive JSValue : Type :=
| JNull
| JBool (b : bool)
| JNum (n : Z)
| JStr (s : string)
| JArr (elts : list JSValue)
| JObj (props : list (string * JSValue)).
Set Elimination Schemes.

(** Errors a JavaScript expression of the component can throw. *)
Inductive JSError : Type :=
| SyntaxError   (* JSON.parse on malformed text *)
| TypeError.    (* property read on null *)

Inductive outcome (A : Type) : Type :=
| Ok (a : A)
| Thrown (e : JSError).
Arguments Ok {A} a.
Arguments Thrown {A} e.

(** [ToBoolean]: [null], [false], [0] and the empty string are falsy;
    arrays and objects are always truthy. *)
Definition truthy (v : JSValue) : bool :=
  match v with
  | JNull => false
  | JBool b => b
  | JNum n => negb (n =? 0)
  | JStr s => negb (s =? "")%string
  | JArr _ => true
  | JObj _ => true
  end.

(** The same test on a value that may be [undefined]. *)
Definition truthy_opt (v : option JSValue) : bool :=
  match v with
  | Some x => truthy x
  | None => false
  end.

(** [a || b]. *)
Definition js_or (a : option JSValue) (b : JSValue) : JSValue :=
  match a with
  | Some x => if truthy x then x else b
  | None => b
  end.

(** [Array.isArray(v)]. *)
Definition Array_isArray (v : option JSValue) : bool :=
  match v with
  | Some (JArr _) => true
  | _ => false
  end.

Fixpoint assoc (k : string) (props : list (string * JSValue)) : option JSValue :=
  match props with
  | [] => None
  | (k', v) :: rest => if (k =? k')%string then Some v else assoc k rest
  end.

(** [v.k] for the property names the component reads ([id], [title],
    [content]): a [TypeError] on [null], the own property of an object,
    and [undefined] on every other value, whose prototypes define none of
    these names. *)
Definition get_prop (v : JSValue) (k : string) : outcome (option JSValue) :=
  match v with
  | JNull => Thrown TypeError
  | JObj props => Ok (assoc k props)
  | _ => Ok None
  end.

(** [a === b].  Primitives are compared by value.  JavaScript compares
    arrays and objects by identity; the embedding has no identities and
    compares them by structure, which is the same answer unless two
    different arrays or objects of the store look alike.  The ids the
    component makes, and those it declares, are strings. *)
Fixpoint strict_eq (a b : JSValue) {struct a} : bool :=
  match a, b with
  | JNull, JNull => true
  | JBool x, JBool y => Bool.eqb x y
  | JNum x, JNum y => (x =? y)
  | JStr x, JStr y => (x =? y)%string
  | JArr xs, JArr ys =>
      (fix go (l : list JSValue) (r : list JSValue) {struct l} : bool :=
         match l, r with
         | [], [] => true
         | x :: l', y :: r' => strict_eq x y && go l' r'
         | _, _ => false
         end) xs ys
  | JObj xs, JObj ys =>
      (fix go (l : list (string * JSValue)) (r : list (string * JSValue))
           {struct l} : bool :=
         match l, r with
         | [], [] => true
         | (k, x) :: l', (k', y) :: r' =>
             (k =? k')%string && strict_eq x y && go l' r'
         | _, _ => false
         end) xs ys
  | _, _ => false
  end.

(** [n.toString()] on the integer [Date.now()] returns. *)
Definition Number_toString (n : Z) : string :=
  NilZero.string_of_int (Z.to_int n).

(** The [JSON] object of the platform: [JSON_parse] is [None] where
    [JSON.parse] throws. *)
Class JSON : Type := {
  JSON_parse : string -> option JSValue;
  JSON_stringify : JSValue -> string
}.

(** ** Pages and the world *)

(** [type Page = { id: string; title: string; content: Block[] }], with the
    fields as they are at run time. *)
Record Page : Type := mkPage {
  id : JSValue;
  title : JSValue;
  content : JSValue
}.

(** The object [JSON.stringify] sees for a page; spreading a page keeps
    this key order. *)
Definition page_json (p : Page) : JSValue :=
  JObj [("id", id p); ("title", title p); ("content", content p)].

Definition pages_json (ps : list Page) : JSValue :=
  JArr (map page_json ps).

Record World : Type := mkWorld {
  pages : list Page;            (* useState<Page[]>([]) *)
  currentPageId : JSValue;      (* useState<string | null>(null) *)
  sidebarOpen : bool;           (* useState(true) *)
  isMobile : bool;              (* useState(false) *)
  isLoading : bool;             (* isLoading.current *)
  pagesChanged : bool;          (* setPages ran since the last commit *)
  storage : option string;      (* localStorage, slot STORAGE_KEY *)
  console : list (string * JSError);  (* console.error calls, latest first *)
  clock : nat -> Z;             (* the successive answers of Date.now() *)
  ticks : nat;                  (* how many of them were consumed *)
  innerWidth : Z                (* window.innerWidth *)
}.

(** ** Computations: state and exceptions *)

Definition M (A : Type) : Type := World -> outcome A * World.

Definition ret {A} (a : A) : M A := fun w => (Ok a, w).

Definition bind {A B} (m : M A) (k : A -> M B) : M B :=
  fun w =>
    match m w with
    | (Ok a, w') => k a w'
    | (Thrown e, w') => (Thrown e, w')
    end.

Definition throw {A} (e : JSError) : M A := fun w => (Thrown e, w).

(** [try { m } catch (e) { h e }]. *)
Definition try_catch {A} (m : M A) (h : JSError -> M A) : M A :=
  fun w =>
    match m w with
    | (Ok a, w') => (Ok a, w')
    | (Thrown e, w') => h e w'
    end.

Definition lift {A} (o : outcome A) : M A := fun w => (o, w).

Declare Scope js_scope.
Delimit Scope js_scope with js.
Notation "x <- m ;; k" := (bind m (fun x => k))
  (at level 61, m at next level, right associativity) : js_scope.
Notation "m ;; k" := (bind m (fun _ => k))
  (at level 61, right associativity) : js_scope.
Local Open Scope js_scope.

(** The world a computation leaves. *)
Definition run {A} (m : M A) (w : World) : World := snd (m w).

(** Reads of the values the current render closed over. *)
Definition getPages : M (list Page) := fun w => (Ok (pages w), w).
Definition getCurrentPageId : M JSValue := fun w => (Ok (currentPageId w), w).
Definition getIsMobile : M bool := fun w => (Ok (isMobile w), w).
Definition getIsLoading : M bool := fun w => (Ok (isLoading w), w).
Definition getSidebarOpen : M bool := fun w => (Ok (sidebarOpen w), w).

Definition setPages (ps : list Page) : M unit := fun w =>
  (Ok tt, mkWorld ps (currentPageId w) (sidebarOpen w) (isMobile w)
            (isLoading w) true (storage w) (console w) (clock w) (ticks w)
            (innerWidth w)).

Definition setCurrentPageId (v : JSValue) : M unit := fun w =>
  (Ok tt, mkWorld (pages w) v (sidebarOpen w) (isMobile w)
            (isLoading w) (pagesChanged w) (storage w) (console w) (clock w)
            (ticks w) (innerWidth w)).

Definition setSidebarOpen (b : bool) : M unit := fun w =>
  (Ok tt, mkWorld (pages w) (currentPageId w) b (isMobile w)
            (isLoading w) (pagesChanged w) (storage w) (console w) (clock w)
            (ticks w) (innerWidth w)).

Definition setIsMobile (b : bool) : M unit := fun w =>
  (Ok tt, mkWorld (pages w) (currentPageId w) (sidebarOpen w) b
            (isLoading w) (pagesChanged w) (storage w) (console w) (clock w)
            (ticks w) (innerWidth w)).

(** [localStorage.getItem(STORAGE_KEY)]: [None] is [null]. *)
Definition localStorage_getItem : M (option string) :=
  fun w => (Ok (storage w), w).

(** [localStorage.setItem(STORAGE_KEY, s)]. *)
Definition localStorage_setItem (s : string) : M unit := fun w =>
  (Ok tt, mkWorld (pages w) (currentPageId w) (sidebarOpen w) (isMobile w)
            (isLoading w) (pagesChanged w) (Some s) (console w) (clock w)
            (ticks w) (innerWidth w)).

Definition console_error (msg : string) (e : JSError) : M unit := fun w =>
  (Ok tt, mkWorld (pages w) (currentPageId w) (sidebarOpen w) (isMobile w)
            (isLoading w) (pagesChanged w) (storage w)
            ((msg, e) :: console w) (clock w) (ticks w) (innerWidth w)).

(** [Date.now()]: the next answer of the clock. *)
Definition Date_now : M Z := fun w =>
  (Ok (clock w (ticks w)),
   mkWorld (pages w) (currentPageId w) (sidebarOpen w) (isMobile w)
     (isLoading w) (pagesChanged w) (storage w) (console w) (clock w)
     (S (ticks w)) (innerWidth w)).

(** The end of a render pass: the flag that [pages] changed is consumed. *)
Definition clearPagesChanged : M unit := fun w =>
  (Ok tt, mkWorld (pages w) (currentPageId w) (sidebarOpen w) (isMobile w)
            (isLoading w) false (storage w) (console w) (clock w) (ticks w)
            (innerWidth w)).

Definition setInnerWidth (z : Z) : M unit := fun w =>
  (Ok tt, mkWorld (pages w) (currentPageId w) (sidebarOpen w) (isMobile w)
            (isLoading w) (pagesChanged w) (storage w) (console w) (clock w)
            (ticks w) z).

Fixpoint mapM {A B} (f : A -> M B) (l : list A) : M (list B) :=
  match l with
  | [] => ret []
  | x :: l' => y <- f x ;; ys <- mapM f l' ;; ret (y :: ys)
  end.

(** ** The component *)

Section Component.

Context {json : JSON}.

(** [saveToLocalStorage], lines 76-80. *)
Definition saveToLocalStorage (pagesToSave : list Page) : M unit :=
  if (0 <? length pagesToSave)%nat
  then localStorage_setItem (JSON_stringify (pages_json pagesToSave))
  else ret tt.

(** [createNewPage], lines 165-171. *)
Definition createNewPage (title : string) : M Page :=
  now <- Date_now ;;
  ret (mkPage (JStr (Number_toString now))
              (js_or (Some (JStr title)) (JStr "Untitled"))
              (JArr [])).

(** [a || b] where evaluating [b] has effects: [b] runs only when [a] is
    falsy. *)
Definition js_or_else (a : option JSValue) (b : M JSValue) : M JSValue :=
  match a with
  | Some x => if truthy x then ret x else b
  | None => b
  end.

(** The function mapped over the parsed array, lines 90-94.  The clock is
    read only when [page.id] is falsy. *)
Definition validatePage (page : JSValue) : M Page :=
  page_id <- lift (get_prop page "id") ;;
  id' <- js_or_else page_id
           (now <- Date_now ;; ret (JStr (Number_toString now))) ;;
  page_title <- lift (get_prop page "title") ;;
  page_content <- lift (get_prop page "content") ;;
  ret (mkPage id'
              (js_or page_title (JStr "Untitled"))
              (match page_content with
               | Some (JArr blocks) => JArr blocks
               | _ => JArr []
               end)).

Definition JSON_parse_m (s : string) : M JSValue :=
  match JSON_parse s with
  | Some v => ret v
  | None => throw SyntaxError
  end.

(** The body of the [try] block, lines 87-99: [true] when it reaches the
    [return] of line 98. *)
Definition load_try (savedPages : string) : M bool :=
  parsedPages <- JSON_parse_m savedPages ;;
  match parsedPages with
  | JArr (first :: rest) =>
      validatedPages <- mapM validatePage (first :: rest) ;;
      setPages validatedPages ;;
      setCurrentPageId (match validatedPages with
                        | p :: _ => id p
                        | [] => JNull
                        end) ;;
      ret true
  | _ => ret false
  end.

(** The load effect, lines 83-109. *)
Definition load : M unit :=
  savedPages <- localStorage_getItem ;;
  returned <-
    match savedPages with
    | Some s =>
        if negb (s =? "")%string
        then try_catch (load_try s)
               (fun e => console_error "Failed to parse saved pages" e ;;
                         ret false)
        else ret false
    | None => ret false
    end ;;
  if (returned : bool) then ret tt
  else
    newPage <- createNewPage "Getting Started" ;;
    setPages [newPage] ;;
    setCurrentPageId (id newPage).

(** The save effect, lines 112-114, as it runs after a render in which
    [pages] is a new array. *)
Definition save_effect : M unit :=
  ps <- getPages ;;
  saveToLocalStorage ps.

(** [handleEditorContentChange], lines 117-130. *)
Definition handleEditorContentChange (updatedContent : list JSValue) : M unit :=
  cur <- getCurrentPageId ;;
  loading <- getIsLoading ;;
  if negb (truthy cur) || loading then ret tt
  else
    prevPages <- getPages ;;
    setPages (map (fun page =>
                     if strict_eq (id page) cur
                     then mkPage (id page) (title page) (JArr updatedContent)
                     else page) prevPages).

(** [saveCurrentPage], lines 134-138, the listener of [blur] and
    [beforeunload]. *)
Definition saveCurrentPage : M unit :=
  cur <- getCurrentPageId ;;
  loading <- getIsLoading ;;
  if truthy cur && negb loading
  then (ps <- getPages ;; saveToLocalStorage ps)
  else ret tt.

(** [checkIfMobile], lines 152-157. *)
Definition checkIfMobile : M unit :=
  fun w =>
    (setIsMobile (innerWidth w <? 768) ;;
     if innerWidth w <? 768 then setSidebarOpen false else ret tt) w.

(** [addNewPage], lines 174-184. *)
Definition addNewPage : M unit :=
  newPage <- createNewPage "Untitled" ;;
  prevPages <- getPages ;;
  setPages (prevPages ++ [newPage]) ;;
  setCurrentPageId (id newPage) ;;
  mobile <- getIsMobile ;;
  if mobile then setSidebarOpen false else ret tt.

(** [updatePageTitle], lines 203-211. *)
Definition updatePageTitle (pageId : JSValue) (newTitle : JSValue) : M unit :=
  if negb (truthy pageId) then ret tt
  else
    prevPages <- getPages ;;
    setPages (map (fun page =>
                     if strict_eq (id page) pageId
                     then mkPage (id page)
                                 (js_or (Some newTitle) (JStr "Untitled"))
                                 (content page)
                     else page) prevPages).

(** [handleTitleBlur], lines 214-218; [value] is [e.target.value]. *)
Definition handleTitleBlur (value : string) : M unit :=
  cur <- getCurrentPageId ;;
  if truthy cur
  then updatePageTitle cur (js_or (Some (JStr value)) (JStr "Untitled"))
  else ret tt.

(** [deletePage], lines 187-200.  [titleFocused] is the text of the title
    input when that input has the focus: line 190 then blurs it, which
    runs [handleTitleBlur] before the handler goes on.  [pages] is the
    array of the render, read before the blur can queue its update, and
    the [setPages] of line 194 replaces that update. *)
Definition deletePage (pageId : JSValue) (titleFocused : option string) : M unit :=
  ps <- getPages ;;
  match titleFocused with
  | Some value => handleTitleBlur value
  | None => ret tt
  end ;;
  let updatedPages := filter (fun page => negb (strict_eq (id page) pageId)) ps in
  setPages updatedPages ;;
  saveToLocalStorage updatedPages ;;
  cur <- getCurrentPageId ;;
  if strict_eq cur pageId
  then setCurrentPageId (match updatedPages with
                         | p :: _ => id p
                         | [] => JNull
                         end)
  else ret tt.

(** [handlePageSwitch], lines 229-258.  The updater of line 238 writes the
    slot before it returns the new array. *)
Definition handlePageSwitch (pageId : JSValue) : M unit :=
  cur <- getCurrentPageId ;;
  if strict_eq pageId cur then ret tt
  else
    loading <- getIsLoading ;;
    (if truthy cur && negb loading
     then
       ps <- getPages ;;
       let updatedContent :=
         js_or (option_map content
                  (find (fun page => strict_eq (id page) cur) ps))
               (JArr []) in
       prevPages <- getPages ;;
       let updatedPages :=
         map (fun page =>
                if strict_eq (id page) cur
                then mkPage (id page) (title page) updatedContent
                else page) prevPages in
       saveToLocalStorage updatedPages ;;
       setPages updatedPages
     else ret tt) ;;
    setCurrentPageId pageId ;;
    mobile <- getIsMobile ;;
    if mobile then setSidebarOpen false else ret tt.

(** The render that follows a handler: when [pages] was set, the save
    effect runs on the new array. *)
Definition commit : M unit :=
  fun w =>
    (if pagesChanged w
     then (save_effect ;; clearPagesChanged)
     else ret tt) w.

(** What the user and the window can do to a mounted component. *)
Inductive Event : Type :=
| AddNewPage                                   (* the two "add" buttons *)
| DeletePage (pageId : JSValue) (titleFocused : option string)
                                               (* the trash button of a page *)
| TitleChange (pageId : JSValue) (value : string)  (* onChange of the title *)
| TitleBlur (value : string)                   (* onBlur of the title *)
| PageSwitch (pageId : JSValue)                (* a click in the sidebar *)
| EditorContentChange (blocks : list JSValue)  (* onChange of the editor *)
| WindowBlur                                   (* blur, beforeunload *)
| Resize (width : Z)                           (* resize of the window *)
| ToggleSidebar.                               (* the menu button *)

Definition handler (ev : Event) : M unit :=
  match ev with
  | AddNewPage => addNewPage
  | DeletePage pageId titleFocused => deletePage pageId titleFocused
  | TitleChange pageId value => updatePageTitle pageId (JStr value)
  | TitleBlur value => handleTitleBlur value
  | PageSwitch pageId => handlePageSwitch pageId
  | EditorContentChange blocks => handleEditorContentChange blocks
  | WindowBlur => saveCurrentPage
  | Resize width => setInnerWidth width ;; checkIfMobile
  | ToggleSidebar => (open <- getSidebarOpen ;; setSidebarOpen (negb open))
  end.

(** One event: its handler, then the render it causes. *)
Definition dispatch (ev : Event) : M unit := handler ev ;; commit.

Definition step (w : World) (ev : Event) : World := run (dispatch ev) w.

Definition steps (w : World) (evs : list Event) : World := fold_left step evs w.

(** The world in which the component is first rendered. *)
Definition initial (slot : option string) (now : nat -> Z) (width : Z) : World :=
  mkWorld [] JNull true false false false slot [] now 0%nat width.

(** Mounting: the effects of the first render in source order.  The save
    effect of that render still sees the empty [pages] it was rendered
    with; the render caused by [load] runs it again on the loaded pages. *)
Definition mount : M unit :=
  load ;;
  saveToLocalStorage [] ;;
  checkIfMobile ;;
  commit.

End Component.

(** ** A reference [JSON] object

    A codec to run the component on; the properties below hold for every
    codec.  [stringify] follows [JSON.stringify] on the values above,
    [parse] reads the JSON grammar with integer numbers and keeps the keys
    of an object in the order of the text.  A fraction, an exponent or an
    escaped surrogate is outside what it reads and makes it fail. *)

Module RefJSON.

(** Literals below are written with ['] for the double quote. *)
Definition dquote : ascii := "034"%char.

Fixpoint q (s : string) : string :=
  match s with
  | EmptyString => EmptyString
  | String c rest => String (if (c =? "'")%char then dquote else c) (q rest)
  end.

Definition hex_digit (n : N) : ascii :=
  ascii_of_N (if (n <? 10)%N then 48 + n else 87 + n)%N.

(** [QuoteJSONString] on one byte of the UTF-8 text. *)
Definition quote_char (c : ascii) : string :=
  let n := N_of_ascii c in
  if (c =? dquote)%char then String "\" (String dquote "")
  else if (c =? "\")%char then "\\"
  else if (n =? 8)%N then "\b"
  else if (n =? 12)%N then "\f"
  else if (n =? 10)%N then "\n"
  else if (n =? 13)%N then "\r"
  else if (n =? 9)%N then "\t"
  else if (n <? 32)%N
       then "\u00" ++ String (hex_digit (n / 16)) (String (hex_digit (n mod 16)) "")
       else String c "".

Fixpoint quote_body (s : string) : string :=
  match s with
  | EmptyString => EmptyString
  | String c rest => quote_char c ++ quote_body rest
  end.

Definition quote (s : string) : string :=
  String dquote (quote_body s ++ String dquote "").

Fixpoint join (sep : string) (l : list string) : string :=
  match l with
  | [] => ""
  | [x] => x
  | x :: rest => x ++ sep ++ join sep rest
  end.

Fixpoint stringify (v : JSValue) : string :=
  match v with
  | JNull => "null"
  | JBool true => "true"
  | JBool false => "false"
  | JNum n => Number_toString n
  | JStr s => quote s
  | JArr elts => "[" ++ join "," (map stringify elts) ++ "]"
  | JObj props =>
      "{" ++ join "," (map (fun kv => quote (fst kv) ++ ":" ++ stringify (snd kv))
                           props) ++ "}"
  end.

Definition is_ws (c : ascii) : bool :=
  let n := N_of_ascii c in
  ((n =? 32) || (n =? 9) || (n =? 10) || (n =? 13))%N.

Fixpoint skip_ws (s : string) : string :=
  match s with
  | String c rest => if is_ws c then skip_ws rest else s
  | EmptyString => s
  end.

Definition is_digit (c : ascii) : bool :=
  let n := N_of_ascii c in ((48 <=? n) && (n <=? 57))%N.

Definition hex_value (c : ascii) : option N :=
  let n := N_of_ascii c in
  if ((48 <=? n) && (n <=? 57))%N then Some (n - 48)%N
  else if ((97 <=? n) && (n <=? 102))%N then Some (n - 87)%N
  else if ((65 <=? n) && (n <=? 70))%N then Some (n - 55)%N
  else None.

(** The UTF-8 bytes of a code point of the basic plane. *)
Definition utf8 (cp : N) : option string :=
  if (cp <? 128)%N then Some (String (ascii_of_N cp) "")
  else if (cp <? 2048)%N
  then Some (String (ascii_of_N (192 + cp / 64))
            (String (ascii_of_N (128 + cp mod 64)) ""))
  else if ((55296 <=? cp) && (cp <=? 57343))%N then None
  else Some (String (ascii_of_N (224 + cp / 4096))
            (String (ascii_of_N (128 + (cp / 64) mod 64))
            (String (ascii_of_N (128 + cp mod 64)) ""))).

Definition unescape (c : ascii) : option string :=
  if (c =? dquote)%char then Some (String dquote "")
  else if (c =? "\")%char then Some "\"
  else if (c =? "/")%char then Some "/"
  else if (c =? "b")%char then Some (String (ascii_of_N 8) "")
  else if (c =? "f")%char then Some (String (ascii_of_N 12) "")
  else if (c =? "n")%char then Some (String (ascii_of_N 10) "")
  else if (c =? "r")%char then Some (String (ascii_of_N 13) "")
  else if (c =? "t")%char then Some (String (ascii_of_N 9) "")
  else None.

(** The characters of a string literal after its opening quote, and the
    text that follows the closing one. *)
Fixpoint parse_string (s : string) : option (string * string) :=
  match s with
  | EmptyString => None
  | String c rest =>
      if (c =? dquote)%char then Some ("", rest)
      else if (c =? "\")%char then
        match rest with
        | String "u" (String h1 (String h2 (String h3 (String h4 rest')))) =>
            match hex_value h1, hex_value h2, hex_value h3, hex_value h4 with
            | Some a, Some b, Some c', Some d =>
                match utf8 (((a * 16 + b) * 16 + c') * 16 + d)%N,
                      parse_string rest' with
                | Some bytes, Some (body, after) => Some (bytes ++ body, after)
                | _, _ => None
                end
            | _, _, _, _ => None
            end
        | String e rest' =>
            match unescape e, parse_string rest' with
            | Some bytes, Some (body, after) => Some (bytes ++ body, after)
            | _, _ => None
            end
        | EmptyString => None
        end
      else if (N_of_ascii c <? 32)%N then None
      else
        match parse_string rest with
        | Some (body, after) => Some (String c body, after)
        | None => None
        end
  end.

Fixpoint parse_digits (s : string) (acc : Z) : Z * string :=
  match s with
  | String c rest =>
      if is_digit c
      then parse_digits rest (10 * acc + Z.of_N (N_of_ascii c - 48))
      else (acc, s)
  | EmptyString => (acc, s)
  end.

(** An integer literal: no leading zero, no fraction, no exponent. *)
Definition parse_nat_literal (s : string) : option (Z * string) :=
  match s with
  | String c rest =>
      if (c =? "0")%char then
        match rest with
        | String d _ => if is_digit d then None else Some (0, rest)
        | EmptyString => Some (0, rest)
        end
      else if is_digit c then Some (parse_digits s 0)
      else None
  | EmptyString => None
  end.

Definition no_fraction (r : option (Z * string)) : option (Z * string) :=
  match r with
  | Some (n, String c rest) =>
      if ((c =? ".") || (c =? "e") || (c =? "E"))%char then None
      else Some (n, String c rest)
  | _ => r
  end.

Definition parse_number (s : string) : option (Z * string) :=
  match s with
  | String "-" rest =>
      match no_fraction (parse_nat_literal rest) with
      | Some (n, after) => Some (- n, after)
      | None => None
      end
  | _ => no_fraction (parse_nat_literal s)
  end.

Fixpoint strip_prefix (p s : string) : option string :=
  match p, s with
  | EmptyString, _ => Some s
  | String a p', String b s' => if (a =? b)%char then strip_prefix p' s' else None
  | _, EmptyString => None
  end.

(** Assignment to a property: a repeated key keeps its place and takes
    the later value. *)
Fixpoint set_prop (k : string) (v : JSValue) (props : list (string * JSValue))
  : list (string * JSValue) :=
  match props with
  | [] => [(k, v)]
  | (k', v') :: rest =>
      if (k =? k')%string then (k', v) :: rest else (k', v') :: set_prop k v rest
  end.

(** Recursive descent; every call on a nested value spends one unit of
    [fuel]. *)
Fixpoint parse_value (fuel : nat) (s : string) : option (JSValue * string) :=
  match fuel with
  | O => None
  | S fuel' =>
      match skip_ws s with
      | String "[" rest =>
          match skip_ws rest with
          | String "]" after => Some (JArr [], after)
          | _ =>
              match parse_elements fuel' rest with
              | Some (elts, after) => Some (JArr elts, after)
              | None => None
              end
          end
      | String "{" rest =>
          match skip_ws rest with
          | String "}" after => Some (JObj [], after)
          | _ =>
              match parse_members fuel' rest [] with
              | Some (props, after) => Some (JObj props, after)
              | None => None
              end
          end
      | String c rest =>
          if (c =? dquote)%char then
            match parse_string rest with
            | Some (str, after) => Some (JStr str, after)
            | None => None
            end
          else
            match strip_prefix "null" (String c rest),
                  strip_prefix "true" (String c rest),
                  strip_prefix "false" (String c rest) with
            | Some after, _, _ => Some (JNull, after)
            | _, Some after, _ => Some (JBool true, after)
            | _, _, Some after => Some (JBool false, after)
            | None, None, None =>
                match parse_number (String c rest) with
                | Some (n, after) => Some (JNum n, after)
                | None => None
                end
            end
      | EmptyString => None
      end
  end

with parse_elements (fuel : nat) (s : string) : option (list JSValue * string) :=
  match fuel with
  | O => None
  | S fuel' =>
      match parse_value fuel' s with
      | Some (v, after) =>
          match skip_ws after with
          | String "," rest =>
              match parse_elements fuel' rest with
              | Some (vs, after') => Some (v :: vs, after')
              | None => None
              end
          | String "]" rest => Some ([v], rest)
          | _ => None
          end
      | None => None
      end
  end

with parse_members (fuel : nat) (s : string) (acc : list (string * JSValue))
  : option (list (string * JSValue) * string) :=
  match fuel with
  | O => None
  | S fuel' =>
      match skip_ws s with
      | String c rest =>
          if (c =? dquote)%char then
            match parse_string rest with
            | Some (k, after_key) =>
                match skip_ws after_key with
                | String ":" after_colon =>
                    match parse_value fuel' after_colon with
                    | Some (v, after) =>
                        match skip_ws after with
                        | String "," rest' =>
                            parse_members fuel' rest' (set_prop k v acc)
                        | String "}" rest' => Some (set_prop k v acc, rest')
                        | _ => None
                        end
                    | None => None
                    end
                | _ => None
                end
            | None => None
            end
          else None
      | EmptyString => None
      end
  end.

(** The whole text is one value, up to white space. *)
Definition parse (s : string) : option JSValue :=
  match parse_value (2 * String.length s + 2) s with
  | Some (v, after) =>
      match skip_ws after with
      | EmptyString => Some v
      | _ => None
      end
  | None => None
  end.

#[export] Instance codec : JSON :=
  {| JSON_parse := parse; JSON_stringify := stringify |}.

End RefJSON.

(** ** What the properties speak of *)

(** Every id of the collection is truthy: for a string, not empty. *)
Definition ids_nonempty (ps : list Page) : Prop :=
  Forall (fun p => truthy (id p) = true) ps.

(** No two pages of the collection share an id. *)
Definition ids_unique (ps : list Page) : Prop := NoDup (map id ps).

(** Every content of the collection is an array. *)
Definition contents_are_arrays (ps : list Page) : Prop :=
  Forall (fun p => Array_isArray (Some (content p)) = true) ps.

(** The page the collection holds under an id, as
    [pages.find((page) => page.id === i)] reads it. *)
Definition page_with_id (i : JSValue) (ps : list Page) : option Page :=
  find (fun page => strict_eq (id page) i) ps.

(** [page.id === pageId ? { ...page, title: newTitle } : page]. *)
Definition with_title (pageId newTitle : JSValue) (page : Page) : Page :=
  if strict_eq (id page) pageId
  then mkPage (id page) newTitle (content page)
  else page.

(** [page.id === pageId ? { ...page, content: newContent } : page]. *)
Definition with_content (pageId newContent : JSValue) (page : Page) : Page :=
  if strict_eq (id page) pageId
  then mkPage (id page) (title page) newContent
  else page.

(** [newTitle || "Untitled"] on the text of the title input. *)
Definition title_or_untitled (newTitle : string) : JSValue :=
  js_or (Some (JStr newTitle)) (JStr "Untitled").

(** The id [addNewPage] would give a page in world [w]. *)
Definition next_id (w : World) : JSValue :=
  JStr (Number_toString (clock w (ticks w))).

(** The page [load] falls back to when the clock answers [t]. *)
Definition default_page (t : Z) : Page :=
  mkPage (JStr (Number_toString t)) (JStr "Getting Started") (JArr []).

Section Runs.

Context {json : JSON}.

(** What the slot holds once [saveToLocalStorage ps] ran on a slot that
    held [old]. *)
Definition saved (ps : list Page) (old : option string) : option string :=
  match ps with
  | [] => old
  | _ :: _ => Some (JSON_stringify (pages_json ps))
  end.

(** [ps.length > 0 ? ps[0].id : null]. *)
Definition first_id (ps : list Page) : JSValue :=
  match ps with
  | p :: _ => id p
  | [] => JNull
  end.

(** The world between the flush of [handlePageSwitch] and its change of
    selection: the collection with the selected page's content written
    back, saved to the slot, and the old selection. *)
Definition flushed (w : World) : World :=
  let cur := currentPageId w in
  let updatedContent :=
    js_or (option_map content (page_with_id cur (pages w))) (JArr []) in
  let updatedPages :=
    map (fun page =>
           if strict_eq (id page) cur
           then mkPage (id page) (title page) updatedContent
           else page) (pages w) in
  mkWorld updatedPages cur (sidebarOpen w) (isMobile w) (isLoading w) true
    (saved updatedPages (storage w))
    (console w) (clock w) (ticks w) (innerWidth w).

(** The tail of [handlePageSwitch], lines 252-257. *)
Definition select (pageId : JSValue) : M unit :=
  (setCurrentPageId pageId ;;
   mobile <- getIsMobile ;;
   if mobile then setSidebarOpen false else ret tt)%js.

(** The world after [k] more readings of the clock. *)
Definition advance (k : nat) (w : World) : World :=
  mkWorld (pages w) (currentPageId w) (sidebarOpen w) (isMobile w)
    (isLoading w) (pagesChanged w) (storage w) (console w) (clock w)
    (k + ticks w) (innerWidth w).

(** The world with one more entry on the console. *)
Definition logged (msg : string) (e : JSError) (w : World) : World :=
  mkWorld (pages w) (currentPageId w) (sidebarOpen w) (isMobile w)
    (isLoading w) (pagesChanged w) (storage w) ((msg, e) :: console w)
    (clock w) (ticks w) (innerWidth w).

(** The world lines 105-108 of [load] leave: one default page, selected. *)
Definition fallback (w : World) : World :=
  let newPage := default_page (clock w (ticks w)) in
  mkWorld [newPage] (id newPage) (sidebarOpen w) (isMobile w) (isLoading w)
    true (storage w) (console w) (clock w) (S (ticks w)) (innerWidth w).

(** The world lines 96-98 of [load] leave: the validated pages, the first
    of them selected. *)
Definition loaded (validatedPages : list Page) (w : World) : World :=
  mkWorld validatedPages (first_id validatedPages) (sidebarOpen w)
    (isMobile w) (isLoading w) true (storage w) (console w) (clock w)
    (ticks w) (innerWidth w).

(** The clock is fresh for an event: a page it adds gets an id that no
    page of the collection has. *)
Definition fresh_for (w : World) (ev : Event) : Prop :=
  match ev with
  | AddNewPage => ~ In (next_id w) (map id (pages w))
  | _ => True
  end.

(** The clock is fresh for every event of a run. *)
Fixpoint fresh_run (w : World) (evs : list Event) : Prop :=
  match evs with
  | [] => True
  | ev :: rest => fresh_for w ev /\ fresh_run (step w ev) rest
  end.

(** The worlds the component can be in between two events: the one it
    mounts with, whatever the slot, the clock and the window, and those an
    event leads to. *)
Inductive reachable : World -> Prop :=
| reachable_mount (slot : option string) (now : nat -> Z) (width : Z) :
    reachable (run mount (initial slot now width))
| reachable_step (w : World) (ev : Event) :
    reachable w -> reachable (step w ev).

End Runs.

(** [r.id] of a persisted record, [None] when there is none to read. *)
Definition record_id (r : JSValue) : option JSValue :=
  match get_prop r "id" with
  | Ok rid => rid
  | Thrown _ => None
  end.

(** What the specification says [load] makes of one persisted record:
    [r] is the record, [p] the page, and a timestamp id is the decimal
    text of some answer of the clock [now]. *)
Definition normalized (now : nat -> Z) (r : JSValue) (p : Page) : Prop :=
  match get_prop r "id", get_prop r "title", get_prop r "content" with
  | Ok rid, Ok rtitle, Ok rcontent =>
      (if truthy_opt rid then Some (id p) = rid
       else exists k, id p = JStr (Number_toString (now k)))
      /\ (if truthy_opt rtitle then Some (title p) = rtitle
          else title p = JStr "Untitled")
      /\ (if Array_isArray rcontent then Some (content p) = rcontent
          else content p = JArr [])
  | _, _, _ => False
  end.

(** ** What the component renders *)

(** [currentPage], line 70. *)
Definition currentPage (w : World) : option Page :=
  find (fun page => strict_eq (id page) (currentPageId w)) (pages w).

(** The main pane, lines 327-387: the selected page with its title and
    editor, or the invitation to create a page. *)
Inductive Pane : Type :=
| PagePane (page : Page)
| NoPageSelected.

Definition main_pane (w : World) : Pane :=
  match currentPage w with
  | Some page => PagePane page
  | None => NoPageSelected
  end.

(** The label of a page in the sidebar, line 304. *)
Definition sidebar_label (page : Page) : JSValue :=
  js_or (Some (title page)) (JStr "Untitled").

(** [initialContent] of the editor, line 38: the blocks of the page, or
    [undefined] for an empty document. *)
Definition initialContent (content : JSValue) : option (list JSValue) :=
  match content with
  | JArr (b :: bs) => Some (b :: bs)
  | _ => None
  end.

(** The sidebar lists a page under this id, lines 289-320. *)
Definition lists_page (w : World) (pageId : JSValue) : bool :=
  existsb (fun page => strict_eq (id page) pageId) (pages w).

Definition is_some {A} (o : option A) : bool :=
  match o with
  | Some _ => true
  | None => false
  end.

(** The events the rendered tree can raise, lines 260-392: the sidebar
    has the add button and, for each page, its switch and delete buttons;
    the title input, the menu button and the editor are rendered for the
    selected page only; the window always listens. *)
Definition offered (w : World) (ev : Event) : bool :=
  match ev with
  | AddNewPage => true
  | DeletePage pageId titleFocused =>
      lists_page w pageId
      && match titleFocused with
         | Some _ => is_some (currentPage w)
         | None => true
         end
  | TitleChange pageId _ =>
      match currentPage w with
      | Some page => strict_eq pageId (id page)
      | None => false
      end
  | TitleBlur _ => is_some (currentPage w)
  | PageSwitch pageId => lists_page w pageId
  | EditorContentChange _ => is_some (currentPage w) && truthy (currentPageId w)
  | WindowBlur => true
  | Resize _ => true
  | ToggleSidebar => is_some (currentPage w)
  end.

(** The selection is the id of a listed page, or [null] when no page is
    left. *)
Definition selection_ok (w : World) : Prop :=
  (map id (pages w) = [] -> currentPageId w = JNull)
  /\ (map id (pages w) <> [] -> In (currentPageId w) (map id (pages w))).

(** A value that has none of the fields of a page: a number, a string, a
    boolean, an array, an object with other keys. *)
Definition has_no_fields (r : JSValue) : Prop :=
  get_prop r "id" = Ok None
  /\ get_prop r "title" = Ok None
  /\ get_prop r "content" = Ok None.

(** The page made for a record without fields when the clock answers
    [t]. *)
Definition untitled_page (t : Z) : Page :=
  mkPage (JStr (Number_toString t)) (JStr "Untitled") (JArr []).

Section Sessions.

Context {json : JSON}.

(** The worlds a user can bring the component to: the one it mounts with
    and those reached by events the rendered tree offers. *)
Inductive reachable_by_user : World -> Prop :=
| user_mount (slot : option string) (now : nat -> Z) (width : Z) :
    reachable_by_user (run mount (initial slot now width))
| user_step (w : World) (ev : Event) :
    reachable_by_user w -> offered w ev = true ->
    reachable_by_user (step w ev).

(** Every title of the collection is truthy: for a string, not empty. *)
Definition titles_nonempty (ps : list Page) : Prop :=
  Forall (fun p => truthy (title p) = true) ps.

(** What the slot holds is a collection that is not empty. *)
Definition holds_a_collection (slot : option string) : Prop :=
  exists ps : list Page,
    ps <> [] /\ slot = Some (JSON_stringify (pages_json ps)).

(** Every id of the world is the decimal text of an answer the clock
    gave already. *)
Definition ids_from_clock (w : World) : Prop :=
  Forall (fun i => exists k, (k < ticks w)%nat
                             /\ i = JStr (Number_toString (clock w k)))
         (map id (pages w)).

End Sessions.

(** ** Worlds to run the component on *)

Module Examples.

(** A clock that answers one second later each time it is read. *)
Definition every_second (k : nat) : Z := 1700000000000 + 1000 * Z.of_nat k.

(** A clock read twice within the same millisecond. *)
Definition same_millisecond (k : nat) : Z := 1700000000000.

Definition block (text : string) : JSValue :=
  JObj [("type", JStr "paragraph"); ("content", JStr text)].

Definition plans : Page := mkPage (JStr "1") (JStr "Plans") (JArr [block "buy milk"]).

Definition notes : Page := mkPage (JStr "2") (JStr "Notes") (JArr []).

(** A mounted component with two pages, the first selected, and the slot
    in step with the collection. *)
Definition two_pages : World :=
  mkWorld [plans; notes] (JStr "1") true false false false
    (Some (RefJSON.stringify (pages_json [plans; notes]))) []
    every_second 0 1024.

(** A mounted component with one page, selected. *)
Definition one_page : World :=
  mkWorld [plans] (JStr "1") true false false false
    (Some (RefJSON.stringify (pages_json [plans]))) []
    every_second 0 1024.

(** The component after its only page was deleted: no page, none
    selected, and the page still in the slot. *)
Definition none_selected : World :=
  mkWorld [] JNull true false false false
    (Some (RefJSON.stringify (pages_json [plans]))) []
    every_second 0 1024.

(** A slot as the component never writes it: a record without id, with an
    empty title and a number for content, and a record that is a page. *)
Definition damaged_slot : string :=
  RefJSON.q "[{'title':'','content':5},{'id':'a','title':'Ideas','content':[]}]".

(** What that slot parses to. *)
Definition damaged_records : list JSValue :=
  [JObj [("title", JStr ""); ("content", JNum 5)];
   page_json (mkPage (JStr "a") (JStr "Ideas") (JArr []))].

(** A slot in which two records share an id. *)
Definition repeated_slot : string :=
  RefJSON.q "[{'id':'a','title':'One','content':[]},{'id':'a','title':'Two','content':[]}]".

(** The same, on a clock that does not advance. *)
Definition one_page_stalled : World :=
  mkWorld [plans] (JStr "1") true false false false
    (Some (RefJSON.stringify (pages_json [plans]))) []
    same_millisecond 0 1024.

End Examples.

(** More slots and runs. *)
Module MoreExamples.

(** A slot in which a record is [null]. *)
Definition null_slot : string :=
  RefJSON.q "[{'id':'a','title':'Ideas','content':[]},null]".

Definition null_records : list JSValue :=
  [page_json (mkPage (JStr "a") (JStr "Ideas") (JArr [])); JNull].

(** A slot that holds no record at all. *)
Definition plain_slot : string := RefJSON.q "[1,'x',{}]".

Definition plain_records : list JSValue := [JNum 1; JStr "x"; JObj []].

End MoreExamples.

(** * Properties *)

(** ** Values *)

(** Structural induction on values, through the lists that arrays and
    objects hold. *)
Lemma JSValue_ind (P : JSValue -> Prop)
  (Hnull : P JNull)
  (Hbool : forall b, P (JBool b))
  (Hnum : forall n, P (JNum n))
  (Hstr : forall s, P (JStr s))
  (Harr : forall elts, Forall P elts -> P (JArr elts))
  (Hobj : forall props, Forall (fun kv => P (snd kv)) props -> P (JObj props)) :
  forall v, P v.
Proof.
  fix IH 1. intros [ | b | n | s | elts | props ].
  - exact Hnull.
  - apply Hbool.
  - apply Hnum.
  - apply Hstr.
  - apply Harr. induction elts as [ | x l IHl ]; constructor; [ apply IH | exact IHl ].
  - apply Hobj. induction props as [ | [k x] l IHl ]; constructor;
      [ apply IH | exact IHl ].
Qed.

Lemma strict_eq_refl (v : JSValue) : strict_eq v v = true.
Proof.
  induction v as [ | b | n | s | elts IH | props IH ] using JSValue_ind; simpl.
  - reflexivity.
  - apply Bool.eqb_reflx.
  - apply Z.eqb_refl.
  - apply String.eqb_refl.
  - induction IH as [ | x l Hx _ IHl ]; [ reflexivity | ].
    now rewrite Hx, IHl.
  - induction IH as [ | [k x] l Hx _ IHl ]; [ reflexivity | ].
    simpl in Hx. now rewrite String.eqb_refl, Hx, IHl.
Qed.

Lemma strict_eq_true (a b : JSValue) : strict_eq a b = true -> a = b.
Proof.
  revert b.
  induction a as [ | x | x | x | elts IH | props IH ] using JSValue_ind;
    intros [ | y | y | y | elts' | props' ]; simpl; try discriminate.
  - reflexivity.
  - intros H. apply Bool.eqb_prop in H. now subst.
  - intros H. apply Z.eqb_eq in H. now subst.
  - intros H. apply String.eqb_eq in H. now subst.
  - intros H. f_equal. revert elts' H.
    induction IH as [ | x l Hx _ IHl ]; intros [ | y r ] H; try discriminate.
    + reflexivity.
    + apply andb_prop in H. destruct H as [H1 H2].
      f_equal; [ now apply Hx | now apply IHl ].
  - intros H. f_equal. revert props' H.
    induction IH as [ | [k x] l Hx _ IHl ]; intros [ | [k' y] r ] H;
      try discriminate.
    + reflexivity.
    + apply andb_prop in H. destruct H as [H12 H3].
      apply andb_prop in H12. destruct H12 as [H1 H2].
      apply String.eqb_eq in H1. simpl in Hx. apply Hx in H2.
      apply IHl in H3. now subst.
Qed.

Lemma strict_eq_iff (a b : JSValue) : strict_eq a b = true <-> a = b.
Proof.
  split; [ apply strict_eq_true | intros ->; apply strict_eq_refl ].
Qed.

Lemma strict_eq_false (a b : JSValue) : strict_eq a b = false <-> a <> b.
Proof.
  rewrite <- strict_eq_iff. destruct (strict_eq a b); split; congruence.
Qed.

Lemma strict_eq_sym (a b : JSValue) : strict_eq a b = strict_eq b a.
Proof.
  destruct (strict_eq a b) eqn:E.
  - apply strict_eq_true in E. subst. symmetry. apply strict_eq_refl.
  - symmetry. apply strict_eq_false. apply strict_eq_false in E. congruence.
Qed.

(** The decimal text of a number is never empty, so a timestamp id is
    truthy. *)
Lemma Number_toString_nonempty (n : Z) : Number_toString n <> "".
Proof.
  unfold Number_toString.
  destruct (Z.to_int n) as [ d | d ]; simpl.
  - destruct d; simpl; discriminate.
  - discriminate.
Qed.

Lemma timestamp_truthy (n : Z) : truthy (JStr (Number_toString n)) = true.
Proof.
  simpl. apply negb_true_iff. apply String.eqb_neq. apply Number_toString_nonempty.
Qed.

(** ** Computations *)

Ltac unfold_m :=
  cbv [run dispatch handler commit save_effect saveToLocalStorage
       addNewPage deletePage updatePageTitle handleTitleBlur handlePageSwitch
       handleEditorContentChange saveCurrentPage checkIfMobile createNewPage
       getPages getCurrentPageId getIsMobile getIsLoading getSidebarOpen
       setPages setCurrentPageId setSidebarOpen setIsMobile setInnerWidth
       localStorage_getItem localStorage_setItem console_error Date_now
       clearPagesChanged bind ret throw lift try_catch].

Lemma bind_ok {A B} (m : M A) (k : A -> M B) (w w' : World) (a : A) :
  m w = (Ok a, w') -> bind m k w = k a w'.
Proof. intros H. unfold bind. now rewrite H. Qed.

Lemma bind_thrown {A B} (m : M A) (k : A -> M B) (w w' : World) (e : JSError) :
  m w = (Thrown e, w') -> bind m k w = (Thrown e, w').
Proof. intros H. unfold bind. now rewrite H. Qed.

Lemma bind_ret {A B} (a : A) (k : A -> M B) (w : World) :
  bind (ret a) k w = k a w.
Proof. reflexivity. Qed.

Section Facts.

Context {json : JSON}.

(** [saveToLocalStorage] never throws and touches the slot only. *)
Lemma saveToLocalStorage_run (ps : list Page) (w : World) :
  saveToLocalStorage ps w =
  (Ok tt,
   mkWorld (pages w) (currentPageId w) (sidebarOpen w) (isMobile w)
     (isLoading w) (pagesChanged w)
     (saved ps (storage w))
     (console w) (clock w) (ticks w) (innerWidth w)).
Proof.
  destruct w, ps; reflexivity.
Qed.

(** The render after a handler: the slot takes the new collection when
    [pages] was set and is not empty. *)
Lemma commit_run (w : World) :
  commit w =
  (Ok tt,
   mkWorld (pages w) (currentPageId w) (sidebarOpen w) (isMobile w)
     (isLoading w) false
     (if pagesChanged w then saved (pages w) (storage w) else storage w)
     (console w) (clock w) (ticks w) (innerWidth w)).
Proof.
  destruct w as [ps cur so mob ld ch st co cl tk iw].
  destruct ch, ps; reflexivity.
Qed.

End Facts.

Section Handlers.

Context {json : JSON}.

Lemma updatePageTitle_run (pageId newTitle : JSValue) (w : World) :
  updatePageTitle pageId newTitle w =
  (Ok tt,
   if truthy pageId
   then mkWorld
          (map (fun page =>
                  if strict_eq (id page) pageId
                  then mkPage (id page)
                              (js_or (Some newTitle) (JStr "Untitled"))
                              (content page)
                  else page) (pages w))
          (currentPageId w) (sidebarOpen w) (isMobile w) (isLoading w) true
          (storage w) (console w) (clock w) (ticks w) (innerWidth w)
   else w).
Proof.
  destruct w as [ps cur so mob ld ch st co cl tk iw]. unfold_m.
  destruct (truthy pageId); reflexivity.
Qed.

Lemma handleTitleBlur_run (value : string) (w : World) :
  handleTitleBlur value w =
  if truthy (currentPageId w)
  then updatePageTitle (currentPageId w) (title_or_untitled value) w
  else (Ok tt, w).
Proof.
  unfold handleTitleBlur, bind, getCurrentPageId.
  destruct (truthy (currentPageId w)); reflexivity.
Qed.

Lemma title_or_untitled_eq (t : string) :
  title_or_untitled t = JStr (if (t =? "")%string then "Untitled" else t).
Proof.
  unfold title_or_untitled, js_or. simpl. destruct (t =? "")%string; reflexivity.
Qed.

Lemma title_or_untitled_idem (t : string) :
  js_or (Some (title_or_untitled t)) (JStr "Untitled") = title_or_untitled t.
Proof.
  rewrite title_or_untitled_eq. simpl.
  destruct (t =? "")%string eqn:E; [ reflexivity | now rewrite E ].
Qed.

(** The blur that [deletePage] may cause leaves no trace: what it sets is
    replaced. *)
Lemma deletePage_run (pageId : JSValue) (titleFocused : option string)
    (w : World) :
  deletePage pageId titleFocused w =
  (Ok tt,
   let updatedPages :=
     filter (fun page => negb (strict_eq (id page) pageId)) (pages w) in
   mkWorld updatedPages
     (if strict_eq (currentPageId w) pageId
      then first_id updatedPages else currentPageId w)
     (sidebarOpen w) (isMobile w) (isLoading w) true
     (saved updatedPages (storage w))
     (console w) (clock w) (ticks w) (innerWidth w)).
Proof.
  assert (Hblur : exists ps ch,
             match titleFocused with
             | Some value => handleTitleBlur value
             | None => ret tt
             end w
             = (Ok tt,
                mkWorld ps (currentPageId w) (sidebarOpen w) (isMobile w)
                  (isLoading w) ch (storage w) (console w) (clock w)
                  (ticks w) (innerWidth w))).
  { destruct titleFocused as [ value | ].
    - rewrite handleTitleBlur_run.
      destruct (truthy (currentPageId w)) eqn:E.
      + rewrite updatePageTitle_run, E. eauto.
      + exists (pages w), (pagesChanged w). now destruct w.
    - exists (pages w), (pagesChanged w). now destruct w. }
  destruct Hblur as (ps & ch & Hblur).
  unfold deletePage.
  rewrite (bind_ok _ _ w w (pages w)) by reflexivity.
  rewrite (bind_ok _ _ _ _ _ Hblur).
  unfold_m. cbn. unfold saved, first_id.
  destruct (filter _ (pages w)); cbn;
    destruct (strict_eq (currentPageId w) pageId); reflexivity.
Qed.

Lemma handleEditorContentChange_run (updatedContent : list JSValue) (w : World) :
  handleEditorContentChange updatedContent w =
  (Ok tt,
   if negb (truthy (currentPageId w)) || isLoading w then w
   else mkWorld
          (map (fun page =>
                  if strict_eq (id page) (currentPageId w)
                  then mkPage (id page) (title page) (JArr updatedContent)
                  else page) (pages w))
          (currentPageId w) (sidebarOpen w) (isMobile w) (isLoading w) true
          (storage w) (console w) (clock w) (ticks w) (innerWidth w)).
Proof.
  destruct w as [ps cur so mob ld ch st co cl tk iw]. unfold_m. simpl.
  destruct (negb (truthy cur) || ld); reflexivity.
Qed.

Lemma addNewPage_run (w : World) :
  addNewPage w =
  (Ok tt,
   mkWorld (pages w ++ [mkPage (next_id w) (JStr "Untitled") (JArr [])])
     (next_id w)
     (if isMobile w then false else sidebarOpen w) (isMobile w) (isLoading w)
     true (storage w) (console w) (clock w) (S (ticks w)) (innerWidth w)).
Proof.
  destruct w as [ps cur so mob ld ch st co cl tk iw]. unfold_m. simpl.
  destruct mob; reflexivity.
Qed.

Lemma handlePageSwitch_run (pageId : JSValue) (w : World) :
  handlePageSwitch pageId w =
  if strict_eq pageId (currentPageId w) then (Ok tt, w)
  else if truthy (currentPageId w) && negb (isLoading w)
       then select pageId (flushed w)
       else select pageId w.
Proof.
  destruct w as [ps cur so mob ld ch st co cl tk iw].
  unfold handlePageSwitch, select, flushed, page_with_id, saved.
  unfold_m. cbn.
  destruct (strict_eq pageId cur); [ reflexivity | ].
  destruct (truthy cur), ld, mob, ps; reflexivity.
Qed.

Lemma select_run (pageId : JSValue) (w : World) :
  select pageId w =
  (Ok tt,
   mkWorld (pages w) pageId (if isMobile w then false else sidebarOpen w)
     (isMobile w) (isLoading w) (pagesChanged w) (storage w) (console w)
     (clock w) (ticks w) (innerWidth w)).
Proof.
  destruct w as [ps cur so mob ld ch st co cl tk iw]. unfold select. unfold_m.
  simpl. destruct mob; reflexivity.
Qed.

(** No handler lets an exception escape. *)
Lemma handler_returns (ev : Event) (w : World) : fst (handler ev w) = Ok tt.
Proof.
  destruct ev; simpl.
  - now rewrite addNewPage_run.
  - now rewrite deletePage_run.
  - now rewrite updatePageTitle_run.
  - unfold handleTitleBlur, bind, getCurrentPageId.
    destruct (truthy (currentPageId w)); [ | reflexivity ].
    now rewrite updatePageTitle_run.
  - rewrite handlePageSwitch_run.
    destruct (strict_eq _ _); [ reflexivity | ].
    destruct (_ && _); now rewrite select_run.
  - now rewrite handleEditorContentChange_run.
  - destruct w as [ps cur so mob ld ch st co cl tk iw]. unfold_m. simpl.
    destruct (truthy cur && negb ld); [ | reflexivity ].
    destruct ps; reflexivity.
  - destruct w as [ps cur so mob ld ch st co cl tk iw]. unfold_m. simpl.
    destruct (width <? 768); reflexivity.
  - reflexivity.
Qed.

Lemma step_eq (w : World) (ev : Event) :
  step w ev = run commit (run (handler ev) w).
Proof.
  unfold step, run, dispatch, bind.
  pose proof (handler_returns ev w) as H.
  destruct (handler ev w) as [[ [] | e ] w']; simpl in H; [ reflexivity | discriminate ].
Qed.

End Handlers.

(** ** Loading *)

Section Loading.

Context {json : JSON}.

Lemma advance_0 (w : World) : advance 0 w = w.
Proof. destruct w; reflexivity. Qed.

Lemma advance_advance (j k : nat) (w : World) :
  advance j (advance k w) = advance (j + k) w.
Proof. unfold advance; simpl. now rewrite Nat.add_assoc. Qed.

(** Validating [null] throws; validating any other value returns a page
    that is the record normalized, with a truthy id and an array for
    content, and reads the clock at most once. *)
Lemma validatePage_null (w : World) :
  validatePage JNull w = (Thrown TypeError, w).
Proof. reflexivity. Qed.

Lemma validatePage_run (r : JSValue) (w : World) :
  r <> JNull ->
  exists p k,
    validatePage r w = (Ok p, advance k w)
    /\ normalized (clock w) r p
    /\ truthy (id p) = true
    /\ Array_isArray (Some (content p)) = true.
Proof.
  intros Hr.
  assert (Hget : forall key, exists o, get_prop r key = Ok o).
  { intros key. destruct r; simpl; eauto. congruence. }
  destruct (Hget "id") as [rid Hid], (Hget "title") as [rtitle Htitle],
    (Hget "content") as [rcontent Hcontent].
  unfold validatePage, normalized. rewrite Hid, Htitle, Hcontent.
  unfold bind, lift, js_or_else, Date_now, ret.
  destruct rid as [ v | ]; simpl.
  1: destruct (truthy v) eqn:Hv.
  1: exists (mkPage v (js_or rtitle (JStr "Untitled"))
               (match rcontent with Some (JArr b) => JArr b | _ => JArr [] end)),
            0%nat.
  2, 3: exists (mkPage (JStr (Number_toString (clock w (ticks w))))
                  (js_or rtitle (JStr "Untitled"))
                  (match rcontent with Some (JArr b) => JArr b | _ => JArr [] end)),
               1%nat.
  all: rewrite ?advance_0; split; [ destruct w; reflexivity | ]; simpl.
  all: rewrite ?Hv; split; [ split; [ | split ] | split ].
  all: try reflexivity; try (exists (ticks w); reflexivity).
  all: try apply timestamp_truthy; try assumption.
  all: try (destruct rtitle as [ t | ]; simpl; [ destruct (truthy t) | ];
            reflexivity).
  all: destruct rcontent as [ [] | ]; reflexivity.
Qed.

(** The map over the parsed array: it returns the normalized records, or
    throws at the first [null]. *)
Lemma mapM_validatePage (recs : list JSValue) (w : World) :
  (exists ps k,
      mapM validatePage recs w = (Ok ps, advance k w)
      /\ Forall2 (normalized (clock w)) recs ps
      /\ ids_nonempty ps
      /\ contents_are_arrays ps
      /\ Forall (fun r => r <> JNull) recs)
  \/ (exists k,
         mapM validatePage recs w = (Thrown TypeError, advance k w)
         /\ In JNull recs).
Proof.
  revert w. induction recs as [ | r recs IH ]; intros w.
  - left. exists [], 0%nat. rewrite advance_0.
    repeat split; constructor.
  - destruct r as [ | b | n | s | elts | props ].
    1: { right. exists 0%nat. rewrite advance_0. split; [ reflexivity | now left ]. }
    all: match goal with
         | |- context [mapM validatePage (?r :: _)] =>
             assert (Hr : r <> JNull) by discriminate;
             destruct (validatePage_run r w Hr) as (p & k & Hp & Hn & Hi & Hc)
         end.
    all: destruct (IH (advance k w)) as
        [ (ps & j & Hps & Hns & His & Hcs & Hnn) | (j & Hthrow & Hin) ].
    all: try (left; exists (p :: ps), (j + k)%nat; cbn [mapM];
              rewrite (bind_ok _ _ _ _ _ Hp), (bind_ok _ _ _ _ _ Hps),
                advance_advance;
              repeat split; try (constructor; assumption); reflexivity).
    all: right; exists (j + k)%nat; cbn [mapM];
      rewrite (bind_ok _ _ _ _ _ Hp), (bind_thrown _ _ _ _ _ Hthrow),
        advance_advance;
      split; [ reflexivity | now right ].
Qed.

Lemma fallback_run (w : World) :
  (newPage <- createNewPage "Getting Started" ;;
   setPages [newPage] ;;
   setCurrentPageId (id newPage))%js w = (Ok tt, fallback w).
Proof. destruct w; reflexivity. Qed.

(** [load], path by path. *)
Lemma load_run (w : World) :
  match storage w with
  | None => load w = (Ok tt, fallback w)
  | Some s =>
      if (s =? "")%string then load w = (Ok tt, fallback w)
      else
        match JSON_parse s with
        | None =>
            load w =
            (Ok tt, fallback (logged "Failed to parse saved pages" SyntaxError w))
        | Some (JArr (r :: rs)) =>
            (exists ps k,
                load w = (Ok tt, loaded ps (advance k w))
                /\ Forall2 (normalized (clock w)) (r :: rs) ps
                /\ ids_nonempty ps
                /\ contents_are_arrays ps
                /\ Forall (fun x => x <> JNull) (r :: rs))
            \/ (exists k,
                   load w =
                   (Ok tt,
                    fallback (logged "Failed to parse saved pages" TypeError
                                (advance k w)))
                   /\ In JNull (r :: rs))
        | Some _ => load w = (Ok tt, fallback w)
        end
  end.
Proof.
  assert (Hget : localStorage_getItem w = (Ok (storage w), w)) by reflexivity.
  unfold load. rewrite (bind_ok _ _ _ _ _ Hget). clear Hget.
  destruct (storage w) as [ s | ].
  2: { rewrite bind_ret. apply fallback_run. }
  destruct (s =? "")%string; cbn [negb].
  { rewrite bind_ret. apply fallback_run. }
  unfold load_try, JSON_parse_m.
  destruct (JSON_parse s) as [ v | ].
  2: { rewrite (bind_ok _ _ w
                  (logged "Failed to parse saved pages" SyntaxError w) false)
         by reflexivity.
       apply fallback_run. }
  assert (Hnot : forall v' : JSValue,
             match v' with JArr (_ :: _) => False | _ => True end ->
             (returned <-
                try_catch
                  (parsedPages <- ret v' ;;
                   match parsedPages with
                   | JArr (first :: rest) =>
                       validatedPages <- mapM validatePage (first :: rest) ;;
                       setPages validatedPages ;;
                       setCurrentPageId
                         match validatedPages with
                         | p :: _ => id p
                         | [] => JNull
                         end ;;
                       ret true
                   | _ => ret false
                   end)
                  (fun e => console_error "Failed to parse saved pages" e ;;
                            ret false) ;;
              (if (returned : bool) then ret tt
               else
                 newPage <- createNewPage "Getting Started" ;;
                 setPages [newPage] ;; setCurrentPageId (id newPage)))%js w
             = (Ok tt, fallback w)).
  { intros v' Hv'. rewrite (bind_ok _ _ w w false); [ apply fallback_run | ].
    destruct v' as [ | b | n | str | [ | r rs ] | props ];
      try reflexivity; contradiction. }
  destruct v as [ | b | n | str | [ | r rs ] | props ];
    try (apply Hnot; exact I).
  clear Hnot.
  destruct (mapM_validatePage (r :: rs) w) as
    [ (ps & k & Hmap & Hnorm & Hids & Hcontents & Hnn) | (k & Hthrow & Hin) ].
  - left. exists ps, k. split; [ | tauto ].
    rewrite (bind_ok _ _ w (loaded ps (advance k w)) true); [ reflexivity | ].
    unfold try_catch. rewrite bind_ret.
    rewrite (bind_ok _ _ _ _ _ Hmap).
    destruct (advance k w), ps; reflexivity.
  - right. exists k. split; [ | exact Hin ].
    rewrite (bind_ok _ _ w
               (logged "Failed to parse saved pages" TypeError (advance k w))
               false); [ apply fallback_run | ].
    unfold try_catch. rewrite bind_ret.
    rewrite (bind_thrown _ _ _ _ _ Hthrow). reflexivity.
Qed.

End Loading.

(** ** One event *)

Section Steps.

Context {json : JSON}.

(** The collection after one event. *)
Lemma step_pages (w : World) (ev : Event) :
  pages (step w ev) =
  match ev with
  | AddNewPage =>
      (pages w ++ [mkPage (next_id w) (JStr "Untitled") (JArr [])])%list
  | DeletePage pageId _ =>
      filter (fun page => negb (strict_eq (id page) pageId)) (pages w)
  | TitleChange pageId value =>
      if truthy pageId
      then map (with_title pageId (title_or_untitled value)) (pages w)
      else pages w
  | TitleBlur value =>
      if truthy (currentPageId w)
      then map (with_title (currentPageId w) (title_or_untitled value)) (pages w)
      else pages w
  | PageSwitch pageId =>
      if strict_eq pageId (currentPageId w) then pages w
      else if truthy (currentPageId w) && negb (isLoading w)
           then pages (flushed w)
           else pages w
  | EditorContentChange blocks =>
      if negb (truthy (currentPageId w)) || isLoading w then pages w
      else map (with_content (currentPageId w) (JArr blocks)) (pages w)
  | WindowBlur | Resize _ | ToggleSidebar => pages w
  end.
Proof.
  rewrite step_eq. unfold run at 1. rewrite commit_run. cbn [snd pages].
  unfold run. destruct ev; cbn [handler].
  - now rewrite addNewPage_run.
  - now rewrite deletePage_run.
  - rewrite updatePageTitle_run. cbn [snd].
    destruct (truthy pageId); reflexivity.
  - rewrite handleTitleBlur_run.
    destruct (truthy (currentPageId w)) eqn:E; [ | reflexivity ].
    rewrite updatePageTitle_run, title_or_untitled_idem, E. reflexivity.
  - rewrite handlePageSwitch_run.
    destruct (strict_eq pageId (currentPageId w)); [ reflexivity | ].
    destruct (truthy (currentPageId w) && negb (isLoading w));
      now rewrite select_run.
  - rewrite handleEditorContentChange_run.
    destruct (negb (truthy (currentPageId w)) || isLoading w); reflexivity.
  - destruct w as [ps cur so mob ld ch st co cl tk iw]. unfold_m. cbn.
    destruct (truthy cur), ld, ps; reflexivity.
  - destruct w as [ps cur so mob ld ch st co cl tk iw]. unfold_m. cbn.
    destruct (width <? 768); reflexivity.
  - reflexivity.
Qed.

(** The selection after one event. *)
Lemma step_currentPageId (w : World) (ev : Event) :
  currentPageId (step w ev) =
  match ev with
  | AddNewPage => next_id w
  | DeletePage pageId _ =>
      if strict_eq (currentPageId w) pageId
      then first_id (filter (fun page => negb (strict_eq (id page) pageId))
                       (pages w))
      else currentPageId w
  | PageSwitch pageId => pageId
  | _ => currentPageId w
  end.
Proof.
  rewrite step_eq. unfold run at 1. rewrite commit_run. cbn [snd currentPageId].
  unfold run. destruct ev; cbn [handler].
  - now rewrite addNewPage_run.
  - now rewrite deletePage_run.
  - rewrite updatePageTitle_run. cbn [snd].
    destruct (truthy pageId); reflexivity.
  - rewrite handleTitleBlur_run.
    destruct (truthy (currentPageId w)) eqn:E; [ | reflexivity ].
    rewrite updatePageTitle_run, E. reflexivity.
  - rewrite handlePageSwitch_run.
    destruct (strict_eq pageId (currentPageId w)) eqn:E.
    + apply strict_eq_true in E. now subst.
    + destruct (truthy (currentPageId w) && negb (isLoading w));
        now rewrite select_run.
  - rewrite handleEditorContentChange_run.
    destruct (negb (truthy (currentPageId w)) || isLoading w); reflexivity.
  - destruct w as [ps cur so mob ld ch st co cl tk iw]. unfold_m. cbn.
    destruct (truthy cur), ld, ps; reflexivity.
  - destruct w as [ps cur so mob ld ch st co cl tk iw]. unfold_m. cbn.
    destruct (width <? 768); reflexivity.
  - reflexivity.
Qed.

(** A world between two events: its last render consumed the change of
    [pages]. *)
Lemma step_committed (w : World) (ev : Event) : pagesChanged (step w ev) = false.
Proof.
  rewrite step_eq. unfold run at 1. now rewrite commit_run.
Qed.

End Steps.

(** ** Collections *)

Lemma with_title_id (i t : JSValue) (p : Page) : id (with_title i t p) = id p.
Proof. unfold with_title. destruct (strict_eq (id p) i); reflexivity. Qed.

Lemma with_content_id (i c : JSValue) (p : Page) : id (with_content i c p) = id p.
Proof. unfold with_content. destruct (strict_eq (id p) i); reflexivity. Qed.

Lemma with_content_title (i c : JSValue) (p : Page) :
  title (with_content i c p) = title p.
Proof. unfold with_content. destruct (strict_eq (id p) i); reflexivity. Qed.

Lemma with_title_content (i t : JSValue) (p : Page) :
  content (with_title i t p) = content p.
Proof. unfold with_title. destruct (strict_eq (id p) i); reflexivity. Qed.

Lemma map_ids_preserved (f : Page -> Page) (ps : list Page) :
  (forall p, id (f p) = id p) -> map id (map f ps) = map id ps.
Proof.
  intros H. rewrite map_map. apply map_ext. exact H.
Qed.

Lemma ids_of_filter_unique (keep : Page -> bool) (ps : list Page) :
  ids_unique ps -> ids_unique (filter keep ps).
Proof.
  unfold ids_unique. induction ps as [ | p ps IH ]; simpl; intros H.
  - constructor.
  - inversion H as [ | x l Hnotin Hrest ]; subst.
    destruct (keep p); simpl; [ constructor | ]; auto.
    intros Hin. apply Hnotin.
    apply in_map_iff in Hin. destruct Hin as (q & Hq & Hin).
    apply filter_In in Hin. apply in_map_iff. exists q. tauto.
Qed.

Lemma ids_of_append_unique (ps : list Page) (p : Page) :
  ids_unique ps -> ~ In (id p) (map id ps) -> ids_unique (ps ++ [p]).
Proof.
  unfold ids_unique. intros Hps Hp. rewrite map_app. simpl.
  induction (map id ps) as [ | x l IH ]; simpl.
  - constructor; [ intros [] | constructor ].
  - inversion Hps as [ | y l' Hx Hl ]; subst. constructor.
    + rewrite in_app_iff. simpl. intros [ H | [ H | [] ] ]; [ auto | ].
      apply Hp. now left.
    + apply IH; [ exact Hl | ]. intros H. apply Hp. now right.
Qed.

(** The page [find] returns for an id that occurs once is the page at
    that place. *)
Lemma page_with_id_split (l1 l2 : list Page) (p : Page) :
  ~ In (id p) (map id l1) ->
  page_with_id (id p) (l1 ++ p :: l2) = Some p.
Proof.
  unfold page_with_id. induction l1 as [ | q l1 IH ]; simpl; intros H.
  - now rewrite strict_eq_refl.
  - destruct (strict_eq (id q) (id p)) eqn:E.
    + apply strict_eq_true in E. exfalso. apply H. now left.
    + apply IH. intros Hin. apply H. now right.
Qed.

Lemma page_with_id_found (i : JSValue) (ps : list Page) (p : Page) :
  page_with_id i ps = Some p -> In p ps /\ id p = i.
Proof.
  unfold page_with_id. intros H. apply find_some in H.
  destruct H as [Hin Heq]. apply strict_eq_true in Heq. tauto.
Qed.

Lemma page_with_id_retitled (i t : JSValue) (ps : list Page) (p : Page) :
  page_with_id i ps = Some p ->
  page_with_id i (map (with_title i t) ps) = Some (mkPage (id p) t (content p)).
Proof.
  unfold page_with_id.
  induction ps as [ | q l IH ]; simpl; [ discriminate | ].
  rewrite with_title_id.
  destruct (strict_eq (id q) i) eqn:E.
  - intros H. injection H as ->. unfold with_title. now rewrite E.
  - exact IH.
Qed.

Lemma page_with_id_recontent (i c : JSValue) (ps : list Page) (p : Page) :
  page_with_id i ps = Some p ->
  page_with_id i (map (with_content i c) ps) = Some (mkPage (id p) (title p) c).
Proof.
  unfold page_with_id.
  induction ps as [ | q l IH ]; simpl; [ discriminate | ].
  rewrite with_content_id.
  destruct (strict_eq (id q) i) eqn:E.
  - intros H. injection H as ->. unfold with_content. now rewrite E.
  - exact IH.
Qed.

(** Removing an id from a collection in which it occurs once removes the
    page at that place and nothing else. *)
Lemma filter_out_unique (l1 l2 : list Page) (p : Page) :
  ids_unique (l1 ++ p :: l2) ->
  filter (fun page => negb (strict_eq (id page) (id p))) (l1 ++ p :: l2)
  = (l1 ++ l2)%list.
Proof.
  unfold ids_unique. rewrite map_app. simpl. intros H.
  apply NoDup_remove_2 in H. rewrite in_app_iff in H.
  assert (Hkeep : forall l, ~ In (id p) (map id l) ->
            filter (fun page => negb (strict_eq (id page) (id p))) l = l).
  { induction l as [ | q l IH ]; simpl; intros Hq; [ reflexivity | ].
    destruct (strict_eq (id q) (id p)) eqn:E; simpl.
    - apply strict_eq_true in E. exfalso. apply Hq. now left.
    - f_equal. apply IH. intros Hin. apply Hq. now right. }
  rewrite filter_app. simpl. rewrite strict_eq_refl. simpl.
  rewrite !Hkeep; tauto.
Qed.

(** ** The operations of the page store *)

Section Operations.

Context {json : JSON}.

(** A handler that changed nothing, followed by the render of a world
    that had nothing to commit, leaves the world as it was. *)
Lemma commit_idle (w : World) : pagesChanged w = false -> run commit w = w.
Proof.
  intros H. unfold run. rewrite commit_run, H. cbn [snd].
  destruct w; simpl in *; now subst.
Qed.

(** C4. Persisting an empty collection changes nothing, whatever the slot
    holds; so deleting the last remaining page, whatever has the focus,
    empties the collection and leaves in the slot what was saved before. *)
Theorem persist_empty_is_noop (w : World) :
  saveToLocalStorage [] w = (Ok tt, w)
  /\ forall p : Page,
       pages w = [p] ->
       forall titleFocused : option string,
         pages (step w (DeletePage (id p) titleFocused)) = []
         /\ storage (step w (DeletePage (id p) titleFocused)) = storage w.
Proof.
  split.
  - destruct w; reflexivity.
  - intros p Hp titleFocused.
    assert (Hfilter : filter (fun page => negb (strict_eq (id page) (id p)))
                        (pages w) = []).
    { rewrite Hp. simpl. now rewrite strict_eq_refl. }
    split.
    + now rewrite step_pages.
    + rewrite step_eq. cbn [handler]. unfold run.
      rewrite commit_run, deletePage_run.
      cbn. rewrite Hfilter. reflexivity.
Qed.

(** C7. [deletePage pageId], whatever has the focus, keeps, in their order,
    exactly the pages whose id is not [pageId]; where ids are unique that
    removes the one page at its place.  When the deleted page was the
    selected one, the first remaining page becomes selected, and none when
    no page remains; when it was not, the selection stays. *)
Theorem deletePage_removes_and_reselects (w : World) (pageId : JSValue)
    (titleFocused : option string) :
  let w' := step w (DeletePage pageId titleFocused) in
  (forall p, In p (pages w') <-> In p (pages w) /\ id p <> pageId)
  /\ pages w' = filter (fun page => negb (strict_eq (id page) pageId)) (pages w)
  /\ (forall l1 p l2,
         pages w = (l1 ++ p :: l2)%list -> id p = pageId ->
         ids_unique (pages w) -> pages w' = (l1 ++ l2)%list)
  /\ (forall q rest,
         currentPageId w = pageId -> pages w' = q :: rest ->
         currentPageId w' = id q)
  /\ (currentPageId w = pageId -> pages w' = [] -> currentPageId w' = JNull)
  /\ (forall p,
         currentPageId w = pageId -> pages w = [p] -> id p = pageId ->
         pages w' = [] /\ currentPageId w' = JNull)
  /\ (currentPageId w <> pageId -> currentPageId w' = currentPageId w).
Proof.
  intros w'.
  assert (Hpages : pages w' =
            filter (fun page => negb (strict_eq (id page) pageId)) (pages w)).
  { unfold w'. now rewrite step_pages. }
  assert (Hcur : currentPageId w' =
            if strict_eq (currentPageId w) pageId
            then first_id (pages w') else currentPageId w).
  { rewrite Hpages. unfold w'. now rewrite step_currentPageId. }
  assert (Hsingle : forall p, pages w = [p] -> id p = pageId -> pages w' = []).
  { intros p Hp Hid. rewrite Hpages, Hp. simpl.
    rewrite <- Hid, strict_eq_refl. reflexivity. }
  refine (conj _ (conj Hpages (conj _ (conj _ (conj _ (conj _ _)))))).
  - intros p. rewrite Hpages, filter_In, negb_true_iff, strict_eq_false.
    reflexivity.
  - intros l1 p l2 Hsplit Hid Huniq. rewrite Hpages, Hsplit, <- Hid.
    apply filter_out_unique. now rewrite <- Hsplit.
  - intros q rest Hsel Hrest. rewrite Hcur, Hsel, strict_eq_refl, Hrest.
    reflexivity.
  - intros Hsel Hempty. rewrite Hcur, Hsel, strict_eq_refl, Hempty.
    reflexivity.
  - intros p Hsel Hp Hid. split; [ now apply (Hsingle p) | ].
    rewrite Hcur, Hsel, strict_eq_refl, (Hsingle p) by assumption. reflexivity.
  - intros Hne. rewrite Hcur. apply strict_eq_false in Hne. now rewrite Hne.
Qed.

(** C10. [handleEditorContentChange] keeps the number and order of the
    pages, every id and every title, every page whose id is not the
    selected one, and the selection; and when no page is selected or the
    load flag is set it leaves the whole world as it was. *)
Theorem handleEditorContentChange_frame (w : World) (blocks : list JSValue) :
  let w' := step w (EditorContentChange blocks) in
  Forall2 (fun p p' =>
             id p' = id p /\ title p' = title p
             /\ (id p <> currentPageId w -> p' = p)
             /\ (p' = p \/ p' = mkPage (id p) (title p) (JArr blocks)))
          (pages w) (pages w')
  /\ currentPageId w' = currentPageId w
  /\ (truthy (currentPageId w) = false \/ isLoading w = true ->
      run (handleEditorContentChange blocks) w = w
      /\ (pagesChanged w = false -> w' = w)).
Proof.
  intros w'.
  assert (Hidle : truthy (currentPageId w) = false \/ isLoading w = true ->
                  run (handleEditorContentChange blocks) w = w).
  { intros H. unfold run. rewrite handleEditorContentChange_run.
    destruct H as [ H | H ]; rewrite H; [ reflexivity | ].
    now rewrite orb_true_r. }
  refine (conj _ (conj _ (fun H => conj (Hidle H) _))).
  - unfold w'. rewrite step_pages.
    destruct (negb (truthy (currentPageId w)) || isLoading w).
    + induction (pages w); constructor; auto.
    + induction (pages w) as [ | p l IH ]; simpl; constructor; [ | exact IH ].
      rewrite with_content_id, with_content_title.
      refine (conj eq_refl (conj eq_refl (conj _ _))).
      * intros Hne. apply strict_eq_false in Hne. unfold with_content.
        now rewrite Hne.
      * unfold with_content. destruct (strict_eq (id p) (currentPageId w)); auto.
  - unfold w'. now rewrite step_currentPageId.
  - intros Hcommitted. unfold w'. rewrite step_eq. cbn [handler].
    rewrite (Hidle H). now apply commit_idle.
Qed.

End Operations.

(** ** Mounting *)

Section Mounting.

Context {json : JSON}.

Lemma checkIfMobile_run (w : World) :
  checkIfMobile w =
  (Ok tt,
   mkWorld (pages w) (currentPageId w)
     (if innerWidth w <? 768 then false else sidebarOpen w)
     (innerWidth w <? 768) (isLoading w) (pagesChanged w) (storage w)
     (console w) (clock w) (ticks w) (innerWidth w)).
Proof.
  destruct w as [ps cur so mob ld ch st co cl tk iw]. unfold_m. cbn.
  destruct (iw <? 768); reflexivity.
Qed.

(** Mounting, given what [load] left: the collection, the selection and
    the console are those of [load]; the slot is written by the save
    effect of the render that [load] caused. *)
Lemma mount_run (w w1 : World) :
  load w = (Ok tt, w1) ->
  fst (mount w) = Ok tt
  /\ pages (run mount w) = pages w1
  /\ currentPageId (run mount w) = currentPageId w1
  /\ storage (run mount w) =
     (if pagesChanged w1 then saved (pages w1) (storage w1) else storage w1)
  /\ console (run mount w) = console w1
  /\ pagesChanged (run mount w) = false.
Proof.
  intros Hload. unfold run, mount.
  rewrite (bind_ok _ _ _ _ _ Hload).
  rewrite (bind_ok _ _ w1 w1 tt) by (destruct w1; reflexivity).
  rewrite (bind_ok _ _ _ _ _ (checkIfMobile_run w1)).
  rewrite commit_run. cbn. repeat split.
Qed.

(** [load] always returns: whatever the slot holds, no exception reaches
    the caller, and the collection it leaves is not empty. *)
Lemma load_returns (w : World) :
  exists w1, load w = (Ok tt, w1) /\ pagesChanged w1 = true /\ pages w1 <> []
             /\ ids_nonempty (pages w1) /\ contents_are_arrays (pages w1).
Proof.
  assert (Hfallback : forall w0,
             pagesChanged (fallback w0) = true /\ pages (fallback w0) <> []
             /\ ids_nonempty (pages (fallback w0))
             /\ contents_are_arrays (pages (fallback w0))).
  { intros w0. repeat split; try discriminate.
    - constructor; [ apply timestamp_truthy | constructor ].
    - constructor; [ reflexivity | constructor ]. }
  pose proof (load_run w) as H.
  destruct (storage w) as [ s | ]; [ | eauto ].
  destruct (s =? "")%string; [ eauto | ].
  destruct (JSON_parse s) as [ [ | b | n | str | [ | r rs ] | props ] | ]; eauto.
  destruct H as [ (ps & k & Hl & Hnorm & Hids & Hcontents & _) | (k & Hl & _) ];
    [ | eauto ].
  exists (loaded ps (advance k w)). repeat split; try assumption.
  inversion Hnorm; subst; discriminate.
Qed.

End Mounting.

(** ** Invariants of the collection *)

Section Invariants.

Context {json : JSON}.

Lemma Forall_map_update {P : Page -> Prop} (f : Page -> Page) (ps : list Page) :
  (forall p, P p -> P (f p)) -> Forall P ps -> Forall P (map f ps).
Proof.
  intros Hf H. induction H; simpl; constructor; auto.
Qed.

Lemma Forall_filter {P : Page -> Prop} (keep : Page -> bool) (ps : list Page) :
  Forall P ps -> Forall P (filter keep ps).
Proof.
  intros H. induction H as [ | p l Hp _ IH ]; simpl; [ constructor | ].
  destruct (keep p); [ constructor | ]; assumption.
Qed.

(** The content the flush of [handlePageSwitch] writes back is an array
    when the contents of the collection are. *)
Lemma flushed_content_is_array (w : World) :
  contents_are_arrays (pages w) ->
  Array_isArray
    (Some (js_or (option_map content
                    (page_with_id (currentPageId w) (pages w))) (JArr [])))
  = true.
Proof.
  intros H. destruct (page_with_id (currentPageId w) (pages w)) as [ p | ] eqn:E;
    simpl; [ | reflexivity ].
  apply page_with_id_found in E. destruct E as [Hin _].
  unfold contents_are_arrays in H. rewrite Forall_forall in H.
  specialize (H p Hin). destruct (content p); try discriminate. reflexivity.
Qed.

Lemma step_contents_are_arrays (w : World) (ev : Event) :
  contents_are_arrays (pages w) -> contents_are_arrays (pages (step w ev)).
Proof.
  intros H. rewrite step_pages. unfold contents_are_arrays in *.
  destruct ev; try assumption.
  - apply Forall_app. split; [ assumption | ]. repeat constructor.
  - now apply Forall_filter.
  - destruct (truthy pageId); [ | assumption ].
    apply Forall_map_update; [ | assumption ].
    intros p Hp. now rewrite with_title_content.
  - destruct (truthy (currentPageId w)); [ | assumption ].
    apply Forall_map_update; [ | assumption ].
    intros p Hp. now rewrite with_title_content.
  - destruct (strict_eq pageId (currentPageId w)); [ assumption | ].
    destruct (truthy (currentPageId w) && negb (isLoading w)); [ | assumption ].
    cbn [flushed pages]. apply Forall_map_update; [ | assumption ].
    intros p Hp. destruct (strict_eq (id p) (currentPageId w)); [ | assumption ].
    cbn [content]. now apply flushed_content_is_array.
  - destruct (negb (truthy (currentPageId w)) || isLoading w); [ assumption | ].
    apply Forall_map_update; [ | assumption ].
    intros p Hp. unfold with_content.
    destruct (strict_eq (id p) (currentPageId w)); [ reflexivity | assumption ].
Qed.

Lemma step_ids (w : World) (ev : Event) :
  match ev with
  | AddNewPage => map id (pages (step w ev)) = (map id (pages w) ++ [next_id w])%list
  | DeletePage pageId _ =>
      pages (step w ev)
      = filter (fun page => negb (strict_eq (id page) pageId)) (pages w)
  | _ => map id (pages (step w ev)) = map id (pages w)
  end.
Proof.
  rewrite step_pages. destruct ev; try reflexivity.
  - now rewrite map_app.
  - destruct (truthy pageId); [ | reflexivity ].
    apply map_ids_preserved. intros p. apply with_title_id.
  - destruct (truthy (currentPageId w)); [ | reflexivity ].
    apply map_ids_preserved. intros p. apply with_title_id.
  - destruct (strict_eq pageId (currentPageId w)); [ reflexivity | ].
    destruct (truthy (currentPageId w) && negb (isLoading w)); [ | reflexivity ].
    cbn [flushed pages]. apply map_ids_preserved. intros p.
    destruct (strict_eq (id p) (currentPageId w)); reflexivity.
  - destruct (negb (truthy (currentPageId w)) || isLoading w); [ reflexivity | ].
    apply map_ids_preserved. intros p. apply with_content_id.
Qed.

Lemma ids_nonempty_map (ps : list Page) :
  ids_nonempty ps <-> Forall (fun i => truthy i = true) (map id ps).
Proof.
  unfold ids_nonempty. now rewrite Forall_map.
Qed.

Lemma step_ids_nonempty (w : World) (ev : Event) :
  ids_nonempty (pages w) -> ids_nonempty (pages (step w ev)).
Proof.
  intros H. pose proof (step_ids w ev) as Hids.
  destruct ev; try (apply ids_nonempty_map; rewrite Hids;
                    now apply ids_nonempty_map).
  - apply ids_nonempty_map. rewrite Hids. apply Forall_app. split.
    + now apply ids_nonempty_map.
    + constructor; [ apply timestamp_truthy | constructor ].
  - rewrite Hids. now apply Forall_filter.
Qed.

Lemma step_ids_unique (w : World) (ev : Event) :
  ids_unique (pages w) -> fresh_for w ev -> ids_unique (pages (step w ev)).
Proof.
  intros H Hfresh. pose proof (step_ids w ev) as Hids.
  destruct ev; try (unfold ids_unique; now rewrite Hids).
  - rewrite step_pages. apply ids_of_append_unique; assumption.
  - rewrite Hids. now apply ids_of_filter_unique.
Qed.

End Invariants.

(** ** Runs of events *)

Section RunsOfEvents.

Context {json : JSON}.

Lemma steps_cons (w : World) (ev : Event) (evs : list Event) :
  steps w (ev :: evs) = steps (step w ev) evs.
Proof. reflexivity. Qed.

Lemma steps_invariant (P : World -> Prop) :
  (forall w ev, P w -> P (step w ev)) ->
  forall evs w, P w -> P (steps w evs).
Proof.
  intros Hstep evs. induction evs as [ | ev evs IH ]; intros w Hw.
  - exact Hw.
  - rewrite steps_cons. apply IH, Hstep, Hw.
Qed.

Lemma steps_ids_unique (evs : list Event) (w : World) :
  ids_unique (pages w) -> fresh_run w evs -> ids_unique (pages (steps w evs)).
Proof.
  revert w. induction evs as [ | ev evs IH ]; intros w Hw Hfresh.
  - exact Hw.
  - destruct Hfresh as [Hev Hrest]. rewrite steps_cons.
    apply IH; [ now apply step_ids_unique | exact Hrest ].
Qed.

(** The ids [load] gives: those of the records, where every record has a
    truthy one. *)
Lemma normalized_ids (now : nat -> Z) (recs : list JSValue) (ps : list Page) :
  Forall2 (normalized now) recs ps ->
  Forall (fun r => truthy_opt (record_id r) = true) recs ->
  map Some (map id ps) = map record_id recs.
Proof.
  intros H. induction H as [ | r p recs ps Hrp _ IH ]; intros Hall.
  - reflexivity.
  - inversion Hall as [ | x l Hr Hrest ]; subst. simpl.
    f_equal; [ | now apply IH ].
    unfold normalized in Hrp. unfold record_id in *.
    destruct (get_prop r "id") as [ rid | ]; [ | contradiction ].
    destruct (get_prop r "title"); [ | contradiction ].
    destruct (get_prop r "content"); [ | contradiction ].
    rewrite Hr in Hrp. tauto.
Qed.

(** C9. The content of every page is an array: in the collection the
    component mounts with, whatever the slot holds; in a page
    [createNewPage] makes; after every event on a collection of which it
    holds; hence after every run of events from the mount. *)
Theorem content_is_always_an_array :
  (forall slot now width,
      contents_are_arrays (pages (run mount (initial slot now width))))
  /\ (forall t w, exists p w',
         createNewPage t w = (Ok p, w') /\ content p = JArr [])
  /\ (forall w ev,
         contents_are_arrays (pages w) ->
         contents_are_arrays (pages (step w ev)))
  /\ (forall slot now width evs,
         contents_are_arrays
           (pages (steps (run mount (initial slot now width)) evs))).
Proof.
  assert (Hmount : forall slot now width,
             contents_are_arrays (pages (run mount (initial slot now width)))).
  { intros slot now width.
    destruct (load_returns (initial slot now width)) as (w1 & Hload & _ & _ & _ & H).
    destruct (mount_run _ _ Hload) as (_ & Hpages & _). now rewrite Hpages. }
  refine (conj Hmount (conj _ (conj step_contents_are_arrays _))).
  - intros t w. eexists. eexists. split; reflexivity.
  - intros slot now width evs.
    apply (steps_invariant (fun w => contents_are_arrays (pages w)));
      [ exact step_contents_are_arrays | apply Hmount ].
Qed.

(** X21. Ids are never empty: not in the collection the component mounts
    with, and not after a run of events from a collection whose ids are
    not empty.  Ids stay unique along a run of events when every
    [addNewPage] of the run reads a clock value whose decimal text is not
    yet an id of the collection.  [load] keeps the ids of the persisted
    records: when every record has a truthy id and no two records share
    one, the collection the component mounts with has unique ids. *)
Theorem ids_nonempty_and_unique_when_fresh :
  (forall w evs, ids_nonempty (pages w) -> ids_nonempty (pages (steps w evs)))
  /\ (forall w evs,
         ids_unique (pages w) -> fresh_run w evs ->
         ids_unique (pages (steps w evs)))
  /\ (forall slot now width,
         ids_nonempty (pages (run mount (initial slot now width))))
  /\ (forall s recs now width,
         s <> "" -> JSON_parse s = Some (JArr recs) -> recs <> [] ->
         Forall (fun r => truthy_opt (record_id r) = true) recs ->
         NoDup (map record_id recs) ->
         ids_unique (pages (run mount (initial (Some s) now width)))).
Proof.
  refine (conj _ (conj _ (conj _ _))).
  - intros w evs.
    apply (steps_invariant (fun w => ids_nonempty (pages w))).
    exact step_ids_nonempty.
  - intros w evs. apply steps_ids_unique.
  - intros slot now width.
    destruct (load_returns (initial slot now width)) as (w1 & Hload & _ & _ & H & _).
    destruct (mount_run _ _ Hload) as (_ & Hpages & _). now rewrite Hpages.
  - intros s recs now width Hs Hparse Hrecs Hall Hnodup.
    pose proof (load_run (initial (Some s) now width)) as H.
    cbn [initial storage] in H.
    apply String.eqb_neq in Hs. rewrite Hs, Hparse in H.
    destruct recs as [ | r rs ]; [ congruence | ].
    destruct H as [ (ps & k & Hl & Hnorm & _) | (k & _ & Hin) ].
    + destruct (mount_run _ _ Hl) as (_ & Hpages & _). rewrite Hpages.
      cbn [loaded pages]. unfold ids_unique.
      apply (NoDup_map_inv Some).
      cbn [clock initial] in Hnorm.
      now rewrite (normalized_ids _ _ _ Hnorm Hall).
    + rewrite Forall_forall in Hall. specialize (Hall JNull Hin).
      discriminate.
Qed.

End RunsOfEvents.

(** ** The selected page *)

Section Selected.

Context {json : JSON}.

(** The load flag is a ref that no line of the component assigns: it is
    [false] when the component mounts and stays so. *)
Lemma isLoading_never_set :
  (forall w ev, isLoading (step w ev) = isLoading w)
  /\ (forall slot now width, isLoading (run mount (initial slot now width)) = false).
Proof.
  split.
  - intros w ev. rewrite step_eq. unfold run at 1. rewrite commit_run.
    cbn [snd isLoading]. unfold run. destruct ev; cbn [handler].
    + now rewrite addNewPage_run.
    + now rewrite deletePage_run.
    + rewrite updatePageTitle_run. destruct (truthy pageId); reflexivity.
    + rewrite handleTitleBlur_run.
      destruct (truthy (currentPageId w)) eqn:E; [ | reflexivity ].
      rewrite updatePageTitle_run, E. reflexivity.
    + rewrite handlePageSwitch_run.
      destruct (strict_eq pageId (currentPageId w)); [ reflexivity | ].
      destruct (truthy (currentPageId w) && negb (isLoading w));
        now rewrite select_run.
    + rewrite handleEditorContentChange_run.
      destruct (negb (truthy (currentPageId w)) || isLoading w); reflexivity.
    + destruct w as [ps cur so mob ld ch st co cl tk iw]. unfold_m. cbn.
      destruct (truthy cur), ld, ps; reflexivity.
    + destruct w as [ps cur so mob ld ch st co cl tk iw]. unfold_m. cbn.
      destruct (width <? 768); reflexivity.
    + reflexivity.
  - intros slot now width.
    pose proof (load_run (initial slot now width)) as H.
    assert (Hload : exists w1, load (initial slot now width) = (Ok tt, w1)
                               /\ isLoading w1 = false).
    { cbn [initial storage] in H.
      destruct slot as [ s | ]; [ | eauto ].
      destruct (s =? "")%string; [ eauto | ].
      destruct (JSON_parse s) as [ [ | b | n | str | [ | r rs ] | props ] | ];
        eauto.
      destruct H as [ (ps & k & Hl & _) | (k & Hl & _) ]; eauto. }
    destruct Hload as (w1 & Hload & Hflag).
    unfold run, mount.
    rewrite (bind_ok _ _ _ _ _ Hload).
    rewrite (bind_ok _ _ w1 w1 tt) by (destruct w1; reflexivity).
    rewrite (bind_ok _ _ _ _ _ (checkIfMobile_run w1)).
    rewrite commit_run. exact Hflag.
Qed.

(** What holds of every world the component can be in. *)
Lemma reachable_invariants (w : World) :
  reachable w ->
  ids_nonempty (pages w)
  /\ contents_are_arrays (pages w)
  /\ isLoading w = false
  /\ pagesChanged w = false.
Proof.
  intros H. induction H as [ slot now width | w ev _ (Hids & Hcontents & Hload & _) ].
  - destruct (load_returns (initial slot now width))
      as (w1 & Hl & _ & _ & Hids & Hcontents).
    destruct (mount_run _ _ Hl) as (_ & Hpages & _ & _ & _ & Hcommitted).
    rewrite Hpages.
    refine (conj Hids (conj Hcontents (conj _ Hcommitted))).
    apply (proj2 isLoading_never_set).
  - refine (conj _ (conj _ (conj _ _))).
    + now apply step_ids_nonempty.
    + now apply step_contents_are_arrays.
    + now rewrite (proj1 isLoading_never_set).
    + apply step_committed.
Qed.

(** A page found in such a world has a truthy id and an array for
    content. *)
Lemma reachable_page (w : World) (i : JSValue) (p : Page) :
  reachable w -> page_with_id i (pages w) = Some p ->
  truthy i = true /\ Array_isArray (Some (content p)) = true.
Proof.
  intros Hw Hfind. destruct (reachable_invariants w Hw) as (Hids & Hcontents & _).
  destruct (page_with_id_found _ _ _ Hfind) as [Hin <-].
  unfold ids_nonempty, contents_are_arrays in *.
  rewrite Forall_forall in Hids, Hcontents. auto.
Qed.

(** The flush of [handlePageSwitch], its save and the selection that
    follows, for a selected page that is in the collection. *)
Lemma switch_flushes (w : World) (b : JSValue) (pa : Page) :
  page_with_id (currentPageId w) (pages w) = Some pa ->
  truthy (id pa) = true ->
  Array_isArray (Some (content pa)) = true ->
  isLoading w = false ->
  b <> currentPageId w ->
  let w1 := flushed w in
  let w' := step w (PageSwitch b) in
  handlePageSwitch b w = select b w1
  /\ (page_with_id (id pa) (pages w1) = Some pa
      /\ storage w1 = Some (JSON_stringify (pages_json (pages w1)))
      /\ currentPageId w1 = id pa)
  /\ (page_with_id (id pa) (pages w') = Some pa
      /\ storage w' = Some (JSON_stringify (pages_json (pages w')))
      /\ currentPageId w' = b).
Proof.
  intros Hfind Hid Harr Hload Hne w1 w'.
  destruct (page_with_id_found _ _ _ Hfind) as [Hin Hcur].
  assert (Hsw : handlePageSwitch b w = select b w1).
  { rewrite handlePageSwitch_run.
    apply strict_eq_false in Hne. rewrite Hne, <- Hcur, Hid, Hload.
    reflexivity. }
  assert (Hcontent : js_or (option_map content
                              (page_with_id (currentPageId w) (pages w)))
                       (JArr []) = content pa).
  { rewrite Hfind. simpl. destruct (content pa); try discriminate.
    reflexivity. }
  assert (Hpages1 : pages w1 =
                    map (with_content (id pa) (content pa)) (pages w)).
  { unfold w1. cbn [flushed pages]. rewrite Hcontent, Hcur. reflexivity. }
  assert (Hfind1 : page_with_id (id pa) (pages w1) = Some pa).
  { rewrite Hpages1. rewrite <- Hcur in Hfind.
    rewrite (page_with_id_recontent _ _ _ _ Hfind). now destruct pa. }
  assert (Hstorage1 : storage w1 = Some (JSON_stringify (pages_json (pages w1)))).
  { unfold w1 at 1. cbn [flushed storage]. fold (pages w1).
    change (map _ (pages w)) with (pages w1).
    destruct (pages w1); [ discriminate | reflexivity ]. }
  assert (Hw' : w' = run commit (run (select b) w1)).
  { unfold w'. rewrite step_eq. cbn [handler]. unfold run at 2 3.
    now rewrite Hsw. }
  refine (conj Hsw (conj (conj Hfind1 (conj Hstorage1 _)) _)).
  - unfold w1. cbn [flushed currentPageId]. now rewrite Hcur.
  - rewrite Hw'. unfold run. rewrite commit_run, select_run.
    cbn [snd pages storage currentPageId pagesChanged].
    refine (conj Hfind1 (conj _ eq_refl)).
    assert (Hchanged : pagesChanged w1 = true) by reflexivity.
    rewrite Hchanged. unfold saved.
    destruct (pages w1); [ discriminate | reflexivity ].
Qed.

(** C2. In every world the component can be in, let page [pa] be the
    selected page.  Switching to another id [b] first reaches the world
    [flushed w], in which the collection holds [pa] with its content, the
    slot holds the whole collection and [pa] is still selected, and only
    then selects [b]; after the switch the slot holds the collection, in
    which [pa] has its content.  In particular the blocks the editor
    reported last are in the slot after the switch.  Switching to the id
    that is selected changes nothing: not the collection, not the
    selection, not the slot. *)
Theorem handlePageSwitch_flushes_then_selects (w : World) (b : JSValue) :
  reachable w ->
  (forall pa : Page,
      page_with_id (currentPageId w) (pages w) = Some pa ->
      b <> currentPageId w ->
      let w1 := flushed w in
      let w' := step w (PageSwitch b) in
      handlePageSwitch b w = select b w1
      /\ (page_with_id (id pa) (pages w1) = Some pa
          /\ storage w1 = Some (JSON_stringify (pages_json (pages w1)))
          /\ currentPageId w1 = id pa)
      /\ (page_with_id (id pa) (pages w') = Some pa
          /\ storage w' = Some (JSON_stringify (pages_json (pages w')))
          /\ currentPageId w' = b))
  /\ (forall (pa : Page) (blocks : list JSValue),
         page_with_id (currentPageId w) (pages w) = Some pa ->
         b <> currentPageId w ->
         let w' := steps w [EditorContentChange blocks; PageSwitch b] in
         page_with_id (id pa) (pages w')
         = Some (mkPage (id pa) (title pa) (JArr blocks))
         /\ storage w' = Some (JSON_stringify (pages_json (pages w')))
         /\ currentPageId w' = b)
  /\ (b = currentPageId w ->
      handlePageSwitch b w = (Ok tt, w) /\ step w (PageSwitch b) = w).
Proof.
  intros Hw.
  destruct (reachable_invariants w Hw) as (_ & _ & Hload & Hcommitted).
  refine (conj _ (conj _ _)).
  - intros pa Hfind Hne.
    destruct (reachable_page w _ _ Hw Hfind) as [Hid Harr].
    destruct (page_with_id_found _ _ _ Hfind) as [_ Hcur].
    rewrite <- Hcur in Hid.
    now apply switch_flushes.
  - intros pa blocks Hfind Hne w'.
    destruct (reachable_page w _ _ Hw Hfind) as [Hid _].
    destruct (page_with_id_found _ _ _ Hfind) as [_ Hcur].
    set (w2 := step w (EditorContentChange blocks)).
    assert (Hcur2 : currentPageId w2 = currentPageId w).
    { unfold w2. now rewrite step_currentPageId. }
    assert (Hfind2 : page_with_id (currentPageId w2) (pages w2)
                     = Some (mkPage (id pa) (title pa) (JArr blocks))).
    { rewrite Hcur2. unfold w2. rewrite step_pages.
      rewrite Hid, Hload. cbn [negb orb].
      now apply page_with_id_recontent. }
    assert (Hload2 : isLoading w2 = false).
    { unfold w2. now rewrite (proj1 isLoading_never_set). }
    assert (Hne2 : b <> currentPageId w2) by now rewrite Hcur2.
    assert (Hid2 : truthy (id pa) = true) by now rewrite Hcur.
    destruct (switch_flushes w2 b _ Hfind2 Hid2 eq_refl Hload2 Hne2)
      as (_ & _ & H).
    exact H.
  - intros ->. assert (H : handlePageSwitch (currentPageId w) w = (Ok tt, w)).
    { now rewrite handlePageSwitch_run, strict_eq_refl. }
    split; [ exact H | ].
    rewrite step_eq. cbn [handler]. unfold run at 2.
    rewrite H. now apply commit_idle.
Qed.

(** C6. In every world the component can be in, when the collection holds
    page [p] under the id [i], [updatePageTitle i t] gives that page the
    title [t], or "Untitled" when [t] is the empty string, and changes
    nothing else of it; reading page [i] afterwards returns that title. *)
Theorem updatePageTitle_sets_title (w : World) (i : JSValue) (t : string) (p : Page) :
  reachable w ->
  page_with_id i (pages w) = Some p ->
  let w' := step w (TitleChange i t) in
  let t' := if (t =? "")%string then "Untitled" else t in
  pages w' = pages (run (updatePageTitle i (JStr t)) w)
  /\ pages w' = map (with_title i (JStr t')) (pages w)
  /\ page_with_id i (pages w') = Some (mkPage (id p) (JStr t') (content p))
  /\ option_map title (page_with_id i (pages w')) = Some (JStr t').
Proof.
  intros Hw Hp w' t'.
  destruct (reachable_page w i p Hw Hp) as [Hi _].
  assert (Hpages : pages w' = map (with_title i (JStr t')) (pages w)).
  { unfold w'. rewrite step_pages, Hi, title_or_untitled_eq. reflexivity. }
  assert (Hfind : page_with_id i (pages w') =
                  Some (mkPage (id p) (JStr t') (content p))).
  { rewrite Hpages. now apply page_with_id_retitled. }
  repeat split.
  - rewrite Hpages. unfold run. rewrite updatePageTitle_run, Hi.
    cbn [snd pages]. fold (title_or_untitled t).
    rewrite title_or_untitled_eq. reflexivity.
  - exact Hpages.
  - exact Hfind.
  - now rewrite Hfind.
Qed.

End Selected.

(** ** Loading and the slot *)

Section LoadingAndSlot.

Context {json : JSON}.

(** Every event that sets [pages] to a collection that is not empty
    leaves the slot holding that collection. *)
Lemma step_persists (w : World) (ev : Event) :
  pagesChanged (run (handler ev) w) = true ->
  pages (step w ev) <> [] ->
  storage (step w ev) = Some (JSON_stringify (pages_json (pages (step w ev)))).
Proof.
  intros Hchanged Hpages. rewrite step_eq in *. unfold run at 1 3.
  unfold run at 1 in Hpages. rewrite commit_run in *.
  cbn [snd storage pages] in *. rewrite Hchanged. unfold saved.
  destruct (pages (run (handler ev) w)); [ congruence | reflexivity ].
Qed.


(** C5, amended. When the slot holds a text that parses to a non-empty
    array with no [null] in it, [load] makes of every record, in order, the
    page the
    specification describes: the id of the record, or the decimal text of
    a clock value when that id is falsy or missing; its title, or
    "Untitled" when that is falsy or missing; its content when that is an
    array, and the empty array otherwise.  The first page is selected.  A
    record that has a truthy id, a truthy title and an array for content
    comes back as the page with that id, that title and that content. *)
Theorem load_normalizes_records (s : string) (recs : list JSValue)
    (now : nat -> Z) (width : Z) :
  s <> "" ->
  JSON_parse s = Some (JArr recs) ->
  recs <> [] ->
  Forall (fun r => r <> JNull) recs ->
  let w0 := initial (Some s) now width in
  exists w1,
    load w0 = (Ok tt, w1)
    /\ Forall2 (normalized now) recs (pages w1)
    /\ currentPageId w1 = first_id (pages w1)
    /\ pages (run mount w0) = pages w1
    /\ Forall2 (fun r p' =>
                  forall i t c : JSValue,
                    get_prop r "id" = Ok (Some i) ->
                    get_prop r "title" = Ok (Some t) ->
                    get_prop r "content" = Ok (Some c) ->
                    truthy i = true -> truthy t = true ->
                    Array_isArray (Some c) = true ->
                    p' = mkPage i t c)
               recs (pages w1).
Proof.
  intros Hs Hparse Hrecs Hnn w0.
  pose proof (load_run w0) as H. unfold w0 in H at 1.
  cbn [initial storage] in H.
  apply String.eqb_neq in Hs. rewrite Hs, Hparse in H.
  destruct recs as [ | r rs ]; [ congruence | ].
  destruct H as [ (ps & k & Hl & Hnorm & _) | (k & _ & Hin) ].
  - exists (loaded ps (advance k w0)).
    destruct (mount_run _ _ Hl) as (_ & Hp & _).
    refine (conj Hl (conj Hnorm (conj eq_refl (conj Hp _)))).
    cbn [loaded pages]. clear - Hnorm.
    induction Hnorm as [ | x p' l l' Hx _ IH ]; constructor; [ | exact IH ].
    intros i t c Hi Ht Hc Hid Htitle Hcontent.
    unfold normalized in Hx. rewrite Hi, Ht, Hc in Hx.
    cbn [truthy_opt] in Hx. rewrite Hid, Htitle, Hcontent in Hx.
    destruct Hx as (H1 & H2 & H3). destruct p' as [qi qt qc].
    cbn in *. congruence.
  - rewrite Forall_forall in Hnn. now specialize (Hnn JNull Hin).
Qed.

(** C8. When the slot holds a text that [JSON.parse] rejects, [load]
    catches the exception, logs one entry on the console, and leaves the
    collection and the selection it leaves for an empty slot: one page
    titled "Getting Started", selected.  When the text parses to a value
    that is not a non-empty array, [load] leaves that same collection and
    selection and logs nothing.  The empty text is never handed to
    [JSON.parse]: it counts as no saved data, and nothing is logged. *)
Theorem load_falls_back_on_bad_data (s : string) (now : nat -> Z) (width : Z) :
  let w0 := initial (Some s) now width in
  let missing := initial None now width in
  let page := mkPage (JStr (Number_toString (now 0%nat)))
                     (JStr "Getting Started") (JArr []) in
  (load missing = (Ok tt, fallback missing)
   /\ pages (fallback missing) = [page]
   /\ currentPageId (fallback missing) = id page)
  /\ (s <> "" -> JSON_parse s = None ->
      exists w1,
        load w0 = (Ok tt, w1)
        /\ console w1 = [("Failed to parse saved pages", SyntaxError)]
        /\ pages w1 = pages (run load missing)
        /\ currentPageId w1 = currentPageId (run load missing)
        /\ pages (run mount w0) = [page]
        /\ currentPageId (run mount w0) = id page)
  /\ (s <> "" ->
      forall v,
        JSON_parse s = Some v ->
        (forall r rs, v <> JArr (r :: rs)) ->
        exists w1,
          load w0 = (Ok tt, w1)
          /\ console w1 = []
          /\ pages w1 = pages (run load missing)
          /\ currentPageId w1 = currentPageId (run load missing)
          /\ pages (run mount w0) = [page]
          /\ currentPageId (run mount w0) = id page)
  /\ (s = "" ->
      load w0 = (Ok tt, fallback w0)
      /\ console (fallback w0) = []
      /\ pages (fallback w0) = pages (run load missing)
      /\ currentPageId (fallback w0) = currentPageId (run load missing)).
Proof.
  intros w0 missing page.
  assert (Hmissing : load missing = (Ok tt, fallback missing)).
  { exact (load_run missing). }
  pose proof (load_run w0) as H. unfold w0 in H at 1.
  cbn [initial storage] in H.
  refine (conj (conj Hmissing (conj eq_refl eq_refl)) (conj _ (conj _ _))).
  - intros Hs Hparse. apply String.eqb_neq in Hs. rewrite Hs, Hparse in H.
    eexists. split; [ exact H | ].
    destruct (mount_run _ _ H) as (_ & Hp & Hc & _).
    unfold run at 1 2. rewrite Hmissing, Hp, Hc. repeat split.
  - intros Hs v Hparse Hnot. apply String.eqb_neq in Hs.
    rewrite Hs, Hparse in H.
    assert (Hload : load w0 = (Ok tt, fallback w0)).
    { destruct v as [ | b | n | str | [ | r rs ] | props ]; try exact H.
      now destruct (Hnot r rs). }
    exists (fallback w0). split; [ exact Hload | ].
    destruct (mount_run _ _ Hload) as (_ & Hp & Hc & _).
    unfold run at 1 2. rewrite Hmissing, Hp, Hc. repeat split.
  - intros Hs. apply String.eqb_eq in Hs. rewrite Hs in H.
    unfold run. rewrite Hmissing. repeat split. exact H.
Qed.

End LoadingAndSlot.

(** ** The component on the reference codec *)

#[local] Existing Instance RefJSON.codec.

Import Examples.

Lemma reference_parse_empty_array : JSON_parse "[]" = Some (JArr []).
Proof. reflexivity. Qed.

(** C1. The component does not keep what the claim, and the comment on
    the [id] field of [Page] ("Acts as UUID"), ask of it: from a collection
    with one page, whose id is unique and not empty, two [addNewPage]
    within one millisecond give two pages the same id; and a slot in which
    two records share an id loads as a collection in which two pages share
    it. *)
Lemma ids_can_collide :
  ids_unique (pages one_page_stalled)
  /\ ids_nonempty (pages one_page_stalled)
  /\ ~ ids_unique (pages (steps one_page_stalled [AddNewPage; AddNewPage]))
  /\ ~ ids_unique (pages (run mount (initial (Some repeated_slot) every_second 1024))).
Proof.
  split; [ | split; [ | split ] ].
  - unfold ids_unique. simpl. constructor; [ intros [] | constructor ].
  - repeat constructor.
  - unfold ids_unique. vm_compute. intros H.
    inversion H as [ | x l _ Hrest ]; subst.
    inversion Hrest as [ | y l' Hnotin _ ]; subst.
    apply Hnotin. now left.
  - unfold ids_unique. vm_compute. intros H.
    inversion H as [ | x l Hnotin _ ]; subst.
    apply Hnotin. now left.
Qed.

(** The same defect in [load]: two records without id, validated within
    one millisecond, get the same timestamp for id. *)
Lemma records_without_id_share_a_timestamp :
  map id (pages (run mount
                   (initial (Some (RefJSON.q "[{'title':'A'},{'title':'B'}]"))
                      same_millisecond 1024)))
  = [JStr "1700000000000"; JStr "1700000000000"].
Proof. reflexivity. Qed.

(** X21 on a run in which the clock advances. *)
Lemma ids_nonempty_and_unique_when_fresh_witness :
  let evs := [AddNewPage; DeletePage (JStr "1") None; AddNewPage] in
  (ids_unique (pages one_page) /\ fresh_run one_page evs)
  /\ ids_unique (pages (steps one_page evs)).
Proof.
  assert (Huniq : ids_unique (pages one_page)).
  { unfold ids_unique. simpl. constructor; [ intros [] | constructor ]. }
  assert (Hfresh : fresh_run one_page
                     [AddNewPage; DeletePage (JStr "1") None; AddNewPage]).
  { vm_compute. repeat split; intros H;
      repeat (destruct H as [ H | H ]; [ discriminate | ]); exact H. }
  split; [ split; assumption | ].
  exact (proj1 (proj2 ids_nonempty_and_unique_when_fresh) one_page _ Huniq Hfresh).
Defined.

(** The example with two pages is the component mounted on a slot that
    holds them. *)
Lemma two_pages_reachable : reachable two_pages.
Proof.
  assert (H : two_pages
              = run mount
                  (initial (Some (RefJSON.stringify (pages_json [plans; notes])))
                     every_second 1024)) by reflexivity.
  rewrite H. constructor.
Defined.

(** C2 on the example with two pages: from the first to the second. *)
Lemma handlePageSwitch_flushes_then_selects_witness :
  (reachable two_pages
   /\ page_with_id (currentPageId two_pages) (pages two_pages) = Some plans
   /\ JStr "2" <> currentPageId two_pages)
  /\ handlePageSwitch (JStr "2") two_pages = select (JStr "2") (flushed two_pages)
  /\ (page_with_id (id plans) (pages (flushed two_pages)) = Some plans
      /\ storage (flushed two_pages)
         = Some (JSON_stringify (pages_json (pages (flushed two_pages))))
      /\ currentPageId (flushed two_pages) = id plans)
  /\ (page_with_id (id plans) (pages (step two_pages (PageSwitch (JStr "2"))))
      = Some plans
      /\ storage (step two_pages (PageSwitch (JStr "2")))
         = Some (JSON_stringify
                   (pages_json (pages (step two_pages (PageSwitch (JStr "2"))))))
      /\ currentPageId (step two_pages (PageSwitch (JStr "2"))) = JStr "2").
Proof.
  assert (Hne : JStr "2" <> currentPageId two_pages) by discriminate.
  split.
  - repeat split; [ exact two_pages_reachable | exact Hne ].
  - exact (proj1 (handlePageSwitch_flushes_then_selects two_pages (JStr "2")
                    two_pages_reachable)
             plans eq_refl Hne).
Defined.



(** C4 on the example with one page, deleted while its title has the
    focus. *)
Lemma persist_empty_is_noop_witness :
  pages one_page = [plans]
  /\ pages (step one_page (DeletePage (id plans) (Some "Plans"))) = []
  /\ storage (step one_page (DeletePage (id plans) (Some "Plans")))
     = storage one_page.
Proof.
  split; [ reflexivity | ].
  exact (proj2 (persist_empty_is_noop one_page) plans eq_refl (Some "Plans")).
Defined.

(** C5 as stated does not hold: a slot whose text parses to a non-empty
    array of a well-formed record and [null] loads as the default page
    alone.  The well-formed record is not kept, and the collection is not
    the normalization of the records. *)
Lemma null_element_loses_the_other_records :
  let w0 := initial (Some MoreExamples.null_slot) every_second 1024 in
  (MoreExamples.null_slot <> ""
   /\ JSON_parse MoreExamples.null_slot = Some (JArr MoreExamples.null_records)
   /\ MoreExamples.null_records <> [])
  /\ load w0 = (Ok tt, run load w0)
  /\ pages (run load w0)
     = [mkPage (JStr "1700000000000") (JStr "Getting Started") (JArr [])]
  /\ ~ In (mkPage (JStr "a") (JStr "Ideas") (JArr [])) (pages (run load w0))
  /\ ~ Forall2 (normalized every_second) MoreExamples.null_records
         (pages (run load w0)).
Proof.
  assert (Hpages : pages (run load (initial (Some MoreExamples.null_slot)
                                      every_second 1024))
                   = [mkPage (JStr "1700000000000") (JStr "Getting Started")
                        (JArr [])]) by reflexivity.
  cbv zeta. rewrite Hpages.
  split; [ split; [ discriminate | split; [ reflexivity | discriminate ] ] | ].
  split; [ reflexivity | ].
  split; [ reflexivity | ].
  split.
  - intros [ H | [] ]. discriminate.
  - intros H. inversion H as [ | r p rs ps _ Hrest ]; subst.
    inversion Hrest.
Qed.

(** C5, amended, on the damaged slot. *)
Lemma load_normalizes_records_witness :
  (damaged_slot <> ""
   /\ JSON_parse damaged_slot = Some (JArr damaged_records)
   /\ damaged_records <> []
   /\ Forall (fun r => r <> JNull) damaged_records)
  /\ pages (run mount (initial (Some damaged_slot) every_second 1024))
     = [mkPage (JStr "1700000000000") (JStr "Untitled") (JArr []);
        mkPage (JStr "a") (JStr "Ideas") (JArr [])]
  /\ exists w1,
       load (initial (Some damaged_slot) every_second 1024) = (Ok tt, w1)
       /\ Forall2 (normalized every_second) damaged_records (pages w1).
Proof.
  assert (Hs : damaged_slot <> "") by discriminate.
  assert (Hrecs : damaged_records <> []) by discriminate.
  assert (Hnn : Forall (fun r => r <> JNull) damaged_records).
  { repeat constructor; discriminate. }
  assert (Hparse : JSON_parse damaged_slot = Some (JArr damaged_records))
    by reflexivity.
  split; [ repeat split; assumption | ].
  split; [ reflexivity | ].
  destruct (load_normalizes_records damaged_slot damaged_records every_second
              1024 Hs Hparse Hrecs Hnn) as (w1 & Hload & Hnorm & _).
  exists w1. split; assumption.
Defined.

(** C6 on the example with two pages: the title of the second is
    cleared. *)
Lemma updatePageTitle_sets_title_witness :
  (reachable two_pages
   /\ page_with_id (JStr "2") (pages two_pages) = Some notes)
  /\ page_with_id (JStr "2") (pages (step two_pages (TitleChange (JStr "2") "")))
     = Some (mkPage (JStr "2") (JStr "Untitled") (JArr [])).
Proof.
  split; [ split; [ exact two_pages_reachable | reflexivity ] | ].
  exact (proj1 (proj2 (proj2
           (updatePageTitle_sets_title two_pages (JStr "2") "" notes
              two_pages_reachable eq_refl)))).
Defined.

(** C7 on the example with two pages: the selected one is deleted. *)
Lemma deletePage_removes_and_reselects_witness :
  (currentPageId two_pages = JStr "1"
   /\ pages (step two_pages (DeletePage (JStr "1") None)) = [notes])
  /\ currentPageId (step two_pages (DeletePage (JStr "1") None)) = id notes.
Proof.
  split; [ split; reflexivity | ].
  exact (proj1 (proj2 (proj2 (proj2
           (deletePage_removes_and_reselects two_pages (JStr "1") None))))
           notes [] eq_refl eq_refl).
Defined.

(** C8 on a slot that holds no JSON. *)
Lemma load_falls_back_on_bad_data_witness :
  ("{oops" <> "" /\ JSON_parse "{oops" = None)
  /\ exists w1,
       load (initial (Some "{oops") every_second 1024) = (Ok tt, w1)
       /\ console w1 = [("Failed to parse saved pages", SyntaxError)]
       /\ pages (run mount (initial (Some "{oops") every_second 1024))
          = [mkPage (JStr "1700000000000") (JStr "Getting Started") (JArr [])].
Proof.
  assert (Hs : "{oops" <> "") by discriminate.
  assert (Hparse : JSON_parse "{oops" = None) by reflexivity.
  split; [ split; assumption | ].
  destruct (proj1 (proj2 (load_falls_back_on_bad_data "{oops" every_second 1024))
              Hs Hparse) as (w1 & Hload & Hconsole & _ & _ & Hpages & _).
  exists w1. repeat split; assumption.
Defined.

(** C9 on the example with two pages and a change in the editor. *)
Lemma content_is_always_an_array_witness :
  contents_are_arrays (pages two_pages)
  /\ contents_are_arrays
       (pages (step two_pages (EditorContentChange [block "buy bread"]))).
Proof.
  assert (H : contents_are_arrays (pages two_pages)) by (repeat constructor).
  split; [ exact H | ].
  exact (proj1 (proj2 (proj2 content_is_always_an_array)) two_pages _ H).
Defined.

(** C10 where no page is selected. *)
Lemma handleEditorContentChange_frame_witness :
  (truthy (currentPageId none_selected) = false
   /\ pagesChanged none_selected = false)
  /\ step none_selected (EditorContentChange [block "lost"]) = none_selected.
Proof.
  split; [ split; reflexivity | ].
  exact (proj2 (proj2 (proj2
           (handleEditorContentChange_frame none_selected [block "lost"]))
           (or_introl eq_refl)) eq_refl).
Defined.

(** * More of the component *)

(** ** What every handler leaves alone *)

Section Frames.

Context {json : JSON}.

Lemma saveCurrentPage_run (w : World) :
  saveCurrentPage w =
  (Ok tt,
   mkWorld (pages w) (currentPageId w) (sidebarOpen w) (isMobile w)
     (isLoading w) (pagesChanged w)
     (if truthy (currentPageId w) && negb (isLoading w)
      then saved (pages w) (storage w) else storage w)
     (console w) (clock w) (ticks w) (innerWidth w)).
Proof.
  destruct w as [ps cur so mob ld ch st co cl tk iw]. unfold_m. cbn.
  destruct (truthy cur), ld, ps; reflexivity.
Qed.

Lemma resize_run (width : Z) (w : World) :
  handler (Resize width) w =
  (Ok tt,
   mkWorld (pages w) (currentPageId w)
     (if width <? 768 then false else sidebarOpen w) (width <? 768)
     (isLoading w) (pagesChanged w) (storage w) (console w) (clock w)
     (ticks w) width).
Proof.
  destruct w as [ps cur so mob ld ch st co cl tk iw]. unfold_m. cbn.
  destruct (width <? 768); reflexivity.
Qed.

Lemma toggle_run (w : World) :
  handler ToggleSidebar w =
  (Ok tt,
   mkWorld (pages w) (currentPageId w) (negb (sidebarOpen w)) (isMobile w)
     (isLoading w) (pagesChanged w) (storage w) (console w) (clock w)
     (ticks w) (innerWidth w)).
Proof. destruct w; reflexivity. Qed.

(** The world after a handler, event by event. *)
Lemma handler_run (ev : Event) (w : World) :
  exists ps cur so st ch,
    handler ev w =
    (Ok tt,
     mkWorld ps cur so
       (match ev with Resize width => width <? 768 | _ => isMobile w end)
       (isLoading w) ch st (console w) (clock w)
       (match ev with AddNewPage => S (ticks w) | _ => ticks w end)
       (match ev with Resize width => width | _ => innerWidth w end))
    /\ (so = sidebarOpen w \/ so = false \/ ev = ToggleSidebar)
    /\ (st = storage w \/ st = saved ps (storage w))
    /\ (ch = true \/ (ch = pagesChanged w /\ ps = pages w)).
Proof.
  destruct ev.
  - cbn [handler]. rewrite addNewPage_run. do 5 eexists.
    split; [ reflexivity | ]. destruct (isMobile w); auto.
  - cbn [handler]. rewrite deletePage_run. do 5 eexists.
    split; [ reflexivity | ]. auto.
  - cbn [handler]. rewrite updatePageTitle_run.
    destruct (truthy pageId); [ | destruct w ]; do 5 eexists;
      (split; [ reflexivity | ]); auto.
  - cbn [handler]. rewrite handleTitleBlur_run.
    destruct (truthy (currentPageId w)) eqn:E.
    + rewrite updatePageTitle_run, E. do 5 eexists.
      split; [ reflexivity | ]. auto.
    + destruct w. do 5 eexists. split; [ reflexivity | ]. auto.
  - cbn [handler]. rewrite handlePageSwitch_run.
    destruct (strict_eq pageId (currentPageId w)).
    + destruct w. do 5 eexists. split; [ reflexivity | ]. auto.
    + destruct (truthy (currentPageId w) && negb (isLoading w));
        rewrite select_run; do 5 eexists; (split; [ reflexivity | ]);
        cbn [isMobile sidebarOpen flushed pages storage pagesChanged];
        destruct (isMobile w); auto.
  - cbn [handler]. rewrite handleEditorContentChange_run.
    destruct (negb (truthy (currentPageId w)) || isLoading w);
      [ destruct w | ]; do 5 eexists; (split; [ reflexivity | ]); auto.
  - cbn [handler]. rewrite saveCurrentPage_run. do 5 eexists.
    split; [ reflexivity | ].
    destruct (truthy (currentPageId w) && negb (isLoading w)); auto.
  - rewrite resize_run. do 5 eexists. split; [ reflexivity | ].
    destruct (width <? 768); auto.
  - rewrite toggle_run. do 5 eexists. split; [ reflexivity | ]. auto.
Qed.

(** The world after an event, as far as every event agrees. *)
Lemma step_frame (ev : Event) (w : World) :
  console (step w ev) = console w
  /\ clock (step w ev) = clock w
  /\ isLoading (step w ev) = isLoading w
  /\ ticks (step w ev)
     = match ev with AddNewPage => S (ticks w) | _ => ticks w end
  /\ isMobile (step w ev)
     = match ev with Resize width => width <? 768 | _ => isMobile w end
  /\ innerWidth (step w ev)
     = match ev with Resize width => width | _ => innerWidth w end
  /\ (sidebarOpen (step w ev) = sidebarOpen w
      \/ sidebarOpen (step w ev) = false \/ ev = ToggleSidebar).
Proof.
  destruct (handler_run ev w) as (ps & cur & so & st & ch & H & Hso & _).
  rewrite step_eq. unfold run. rewrite H, commit_run. cbn.
  repeat split. exact Hso.
Qed.

(** The slot after an event on a world with nothing to commit: left as it
    was, or written with the collection the event leaves. *)
Lemma step_storage (ev : Event) (w : World) :
  pagesChanged w = false ->
  (storage (step w ev) = storage w /\ pages (step w ev) = pages w)
  \/ storage (step w ev) = saved (pages (step w ev)) (storage w).
Proof.
  intros Hcommitted.
  destruct (handler_run ev w) as (ps & cur & so & st & ch & H & _ & Hst & Hch).
  rewrite step_eq. unfold run. rewrite H, commit_run. cbn.
  destruct Hch as [ -> | [-> ->] ].
  - right. destruct Hst as [ -> | -> ]; [ reflexivity | ].
    unfold saved. destruct ps; reflexivity.
  - rewrite Hcommitted. destruct Hst as [ -> | -> ]; auto.
Qed.

End Frames.

(** ** The slot and the console over the life of the component *)

Section Lifetime.

Context {json : JSON}.

Lemma saved_holds_a_collection (ps : list Page) (old : option string) :
  holds_a_collection old -> holds_a_collection (saved ps old).
Proof.
  intros H. destruct ps as [ | p l ]; [ exact H | ].
  exists (p :: l). split; [ discriminate | reflexivity ].
Qed.

Lemma slot_invariant (w : World) :
  reachable w ->
  (pages w <> [] -> storage w = Some (JSON_stringify (pages_json (pages w))))
  /\ holds_a_collection (storage w).
Proof.
  intros H. induction H as [ slot now width | w ev Hw [Hstep Hholds] ].
  - destruct (load_returns (initial slot now width))
      as (w1 & Hl & Hch & Hne & _).
    destruct (mount_run _ _ Hl) as (_ & Hp & _ & Hs & _).
    rewrite Hp, Hs, Hch. unfold saved.
    destruct (pages w1) as [ | p l ] eqn:E; [ congruence | ].
    split; [ reflexivity | ].
    exists (p :: l). split; [ discriminate | reflexivity ].
  - destruct (reachable_invariants w Hw) as (_ & _ & _ & Hcommitted).
    destruct (step_storage ev w Hcommitted) as [ [Hs Hp] | Hs ]; rewrite Hs.
    + rewrite Hp. split; assumption.
    + split; [ | now apply saved_holds_a_collection ].
      unfold saved. destruct (pages (step w ev)); [ congruence | reflexivity ].
Qed.

(** X1. In every world the component can be in, a collection that is not
    empty is the one the slot holds. *)
Theorem slot_follows_collection (w : World) :
  reachable w ->
  pages w <> [] ->
  storage w = Some (JSON_stringify (pages_json (pages w))).
Proof.
  intros Hw. exact (proj1 (slot_invariant w Hw)).
Qed.

(** X2. From the mount on the slot is never empty again: whatever it held
    before, in every world the component can be in it holds a collection
    that is not empty, and no event removes it. *)
Theorem slot_is_never_emptied (w : World) :
  reachable w ->
  holds_a_collection (storage w)
  /\ forall evs, holds_a_collection (storage (steps w evs)).
Proof.
  intros Hw. split; [ exact (proj2 (slot_invariant w Hw)) | ].
  intros evs.
  assert (H : reachable (steps w evs)).
  { revert w Hw. induction evs as [ | ev evs IH ]; intros w Hw; [ exact Hw | ].
    apply IH. now constructor. }
  exact (proj2 (slot_invariant _ H)).
Qed.

(** X3. The only line that logs is the [catch] of [load]: the console of
    the component holds no entry, or the one entry of a failed load, and
    no event adds one. *)
Theorem console_has_at_most_the_load_failure (w : World) :
  reachable w ->
  (console w = []
   \/ exists e, console w = [("Failed to parse saved pages", e)])
  /\ forall ev, console (step w ev) = console w.
Proof.
  intros Hw. split; [ | intros ev; exact (proj1 (step_frame ev w)) ].
  induction Hw as [ slot now width | w ev _ IH ].
  - pose proof (load_run (initial slot now width)) as H.
    cbn [initial storage] in H.
    assert (Hload : exists w1, load (initial slot now width) = (Ok tt, w1)
               /\ (console w1 = []
                   \/ exists e, console w1 = [("Failed to parse saved pages", e)])).
    { destruct slot as [ s | ]; [ | eauto ].
      destruct (s =? "")%string; [ eauto | ].
      destruct (JSON_parse s) as [ [ | b | n | str | [ | r rs ] | props ] | ];
        eauto.
      - destruct H as [ (ps & k & Hl & _) | (k & Hl & _) ];
          (eexists; split; [ exact Hl | ]);
          [ left | right; eexists ]; reflexivity.
      - eexists. split; [ exact H | ]. right. eexists. reflexivity. }
    destruct Hload as (w1 & Hl & Hc).
    destruct (mount_run _ _ Hl) as (_ & _ & _ & _ & Hconsole & _).
    now rewrite Hconsole.
  - now rewrite (proj1 (step_frame ev w)).
Qed.

End Lifetime.

(** ** Titles *)

Section Titles.

Context {json : JSON}.

Lemma title_or_untitled_truthy (t : string) : truthy (title_or_untitled t) = true.
Proof.
  rewrite title_or_untitled_eq. simpl.
  destruct (t =? "")%string eqn:E; [ reflexivity | now rewrite E ].
Qed.

Lemma normalized_title_truthy (now : nat -> Z) (r : JSValue) (p : Page) :
  normalized now r p -> truthy (title p) = true.
Proof.
  unfold normalized.
  destruct (get_prop r "id"); [ | contradiction ].
  destruct (get_prop r "title") as [ rtitle | ]; [ | contradiction ].
  destruct (get_prop r "content"); [ | contradiction ].
  intros (_ & H & _). destruct rtitle as [ t | ]; simpl in H.
  - destruct (truthy t) eqn:E.
    + injection H as ->. exact E.
    + now rewrite H.
  - now rewrite H.
Qed.

Lemma load_titles_nonempty (w : World) :
  exists w1, load w = (Ok tt, w1) /\ titles_nonempty (pages w1).
Proof.
  assert (Hfallback : forall w0, titles_nonempty (pages (fallback w0))).
  { intros w0. repeat constructor. }
  pose proof (load_run w) as H.
  destruct (storage w) as [ s | ]; [ | eauto ].
  destruct (s =? "")%string; [ eauto | ].
  destruct (JSON_parse s) as [ [ | b | n | str | [ | r rs ] | props ] | ]; eauto.
  destruct H as [ (ps & k & Hl & Hnorm & _) | (k & Hl & _) ]; [ | eauto ].
  exists (loaded ps (advance k w)). split; [ exact Hl | ].
  cbn [loaded pages]. unfold titles_nonempty.
  clear Hl. induction Hnorm as [ | x p l l' Hx _ IH ]; constructor.
  - exact (normalized_title_truthy _ _ _ Hx).
  - exact IH.
Qed.

Lemma step_titles_nonempty (w : World) (ev : Event) :
  titles_nonempty (pages w) -> titles_nonempty (pages (step w ev)).
Proof.
  intros H. rewrite step_pages. unfold titles_nonempty in *.
  destruct ev; try assumption.
  - apply Forall_app. split; [ assumption | ]. repeat constructor.
  - now apply Forall_filter.
  - destruct (truthy pageId); [ | assumption ].
    apply Forall_map_update; [ | assumption ].
    intros p Hp. unfold with_title.
    destruct (strict_eq (id p) pageId); [ | assumption ].
    apply title_or_untitled_truthy.
  - destruct (truthy (currentPageId w)); [ | assumption ].
    apply Forall_map_update; [ | assumption ].
    intros p Hp. unfold with_title.
    destruct (strict_eq (id p) (currentPageId w)); [ | assumption ].
    apply title_or_untitled_truthy.
  - destruct (strict_eq pageId (currentPageId w)); [ assumption | ].
    destruct (truthy (currentPageId w) && negb (isLoading w)); [ | assumption ].
    cbn [flushed pages]. apply Forall_map_update; [ | assumption ].
    intros p Hp. destruct (strict_eq (id p) (currentPageId w)); assumption.
  - destruct (negb (truthy (currentPageId w)) || isLoading w); [ assumption | ].
    apply Forall_map_update; [ | assumption ].
    intros p Hp. now rewrite with_content_title.
Qed.

Lemma reachable_titles (w : World) : reachable w -> titles_nonempty (pages w).
Proof.
  intros H. induction H as [ slot now width | w ev _ IH ].
  - destruct (load_titles_nonempty (initial slot now width)) as (w1 & Hl & Ht).
    destruct (mount_run _ _ Hl) as (_ & Hp & _). now rewrite Hp.
  - now apply step_titles_nonempty.
Qed.

(** X4. No page ever has an empty title: in every world the component can
    be in every title is truthy, so the sidebar, which would print
    "Untitled" for an empty title, prints the title of every page. *)
Theorem titles_are_never_empty (w : World) :
  reachable w ->
  titles_nonempty (pages w)
  /\ Forall (fun page => sidebar_label page = title page) (pages w).
Proof.
  intros Hw. pose proof (reachable_titles w Hw) as H.
  split; [ exact H | ].
  unfold titles_nonempty in H. rewrite Forall_forall in *.
  intros p Hp. unfold sidebar_label, js_or. now rewrite (H p Hp).
Qed.

End Titles.

(** ** The selection *)

Section Selection.

Context {json : JSON}.

Lemma page_with_id_some (i : JSValue) (ps : list Page) :
  In i (map id ps) <-> exists p, page_with_id i ps = Some p.
Proof.
  unfold page_with_id. split.
  - intros H. apply in_map_iff in H. destruct H as (q & Hq & Hin).
    destruct (find (fun page => strict_eq (id page) i) ps) as [ p | ] eqn:E;
      [ eauto | ].
    apply (find_none _ _ E) in Hin. simpl in Hin.
    rewrite Hq, strict_eq_refl in Hin. discriminate.
  - intros [p H]. apply find_some in H. destruct H as [Hin Heq].
    apply strict_eq_true in Heq. apply in_map_iff. eauto.
Qed.

Lemma lists_page_ids (w : World) (i : JSValue) :
  lists_page w i = true <-> In i (map id (pages w)).
Proof.
  unfold lists_page. rewrite existsb_exists, in_map_iff.
  split; intros (p & H1 & H2).
  - apply strict_eq_true in H2. eauto.
  - exists p. subst. now rewrite strict_eq_refl.
Qed.

Lemma mount_selection_ok (slot : option string) (now : nat -> Z) (width : Z) :
  selection_ok (run mount (initial slot now width)).
Proof.
  assert (Hload : exists w1, load (initial slot now width) = (Ok tt, w1)
             /\ pages w1 <> [] /\ currentPageId w1 = first_id (pages w1)).
  { assert (Hfallback : forall w0, pages (fallback w0) <> []
               /\ currentPageId (fallback w0) = first_id (pages (fallback w0))).
    { intros w0. split; [ discriminate | reflexivity ]. }
    pose proof (load_run (initial slot now width)) as H.
    cbn [initial storage] in H.
    destruct slot as [ s | ]; [ | eauto ].
    destruct (s =? "")%string; [ eauto | ].
    destruct (JSON_parse s) as [ [ | b | n | str | [ | r rs ] | props ] | ];
      eauto.
    destruct H as [ (ps & k & Hl & Hnorm & _) | (k & Hl & _) ]; [ | eauto ].
    exists (loaded ps (advance k (initial (Some s) now width))).
    split; [ exact Hl | ]. split; [ | reflexivity ].
    cbn [loaded pages]. inversion Hnorm; discriminate. }
  destruct Hload as (w1 & Hl & Hne & Hcur).
  destruct (mount_run _ _ Hl) as (_ & Hp & Hc & _).
  unfold selection_ok. rewrite Hp, Hc, Hcur.
  destruct (pages w1) as [ | p l ]; [ congruence | ].
  split; [ discriminate | ]. intros _. now left.
Qed.

Lemma step_selection_ok (w : World) (ev : Event) :
  selection_ok w -> offered w ev = true -> selection_ok (step w ev).
Proof.
  unfold selection_ok. intros [Hnone Hsome] Hoffered.
  pose proof (step_ids w ev) as Hids.
  pose proof (step_currentPageId w ev) as Hcur.
  destruct ev; rewrite Hcur; try (rewrite Hids; split; assumption).
  - rewrite Hids. split.
    + intros H. apply app_eq_nil in H. destruct H as [_ H]. discriminate.
    + intros _. apply in_app_iff. right. now left.
  - rewrite Hids. clear Hids Hcur.
    set (keep := fun page : Page => negb (strict_eq (id page) pageId)).
    assert (Hkept : forall i, i <> pageId -> In i (map id (pages w)) ->
                    In i (map id (filter keep (pages w)))).
    { intros i Hi Hin. apply in_map_iff in Hin. destruct Hin as (p & <- & Hin).
      apply in_map_iff. exists p. split; [ reflexivity | ].
      apply filter_In. split; [ exact Hin | ].
      unfold keep. apply negb_true_iff, strict_eq_false. exact Hi. }
    destruct (strict_eq (currentPageId w) pageId) eqn:E.
    + destruct (filter keep (pages w)) as [ | q l ].
      * split; [ reflexivity | intros H; now destruct H ].
      * split; [ discriminate | ]. intros _. now left.
    + apply strict_eq_false in E.
      destruct (map id (pages w)) as [ | i l ] eqn:Eids.
      * destruct (pages w); [ | discriminate ]. simpl.
        split; [ intros _; now apply Hnone | intros H; now destruct H ].
      * assert (Hin : In (currentPageId w)
                        (map id (filter keep (pages w)))).
        { apply Hkept; [ exact E | ]. apply Hsome. discriminate. }
        split; [ | intros _; exact Hin ].
        intros H. rewrite H in Hin. destruct Hin.
  - rewrite Hids. cbn [offered] in Hoffered. apply lists_page_ids in Hoffered.
    split; [ | intros _; exact Hoffered ].
    intros H. rewrite H in Hoffered. destruct Hoffered.
Qed.

Lemma user_selection_ok (w : World) : reachable_by_user w -> selection_ok w.
Proof.
  intros H. induction H as [ slot now width | w ev _ IH Hoffered ].
  - apply mount_selection_ok.
  - now apply step_selection_ok.
Qed.

(** X5. Whatever the user does with what the component renders, the
    invitation to create a page is shown exactly when the collection is
    empty, and then the selection is [null]; with at least one page the
    selected page exists, and its id is the selection. *)
Theorem selected_page_exists_unless_empty (w : World) :
  reachable_by_user w ->
  (main_pane w = NoPageSelected <-> pages w = [])
  /\ (pages w = [] -> currentPageId w = JNull)
  /\ (pages w <> [] ->
      exists page, main_pane w = PagePane page /\ In page (pages w)
                   /\ id page = currentPageId w).
Proof.
  intros Hw. destruct (user_selection_ok w Hw) as [Hnone Hsome].
  assert (Hfound : pages w <> [] ->
            exists page, currentPage w = Some page /\ In page (pages w)
                         /\ id page = currentPageId w).
  { intros Hne.
    assert (Hids : map id (pages w) <> []) by now destruct (pages w).
    apply Hsome, page_with_id_some in Hids. destruct Hids as [p Hp].
    exists p. split; [ exact Hp | ]. now apply page_with_id_found. }
  refine (conj _ (conj _ _)).
  - unfold main_pane. split.
    + intros H. destruct (pages w) as [ | p l ] eqn:E; [ reflexivity | ].
      destruct Hfound as (q & Hq & _); [ discriminate | ].
      rewrite Hq in H. discriminate.
    + intros H. unfold currentPage. now rewrite H.
  - intros H. apply Hnone. now rewrite H.
  - intros Hne. destruct (Hfound Hne) as (p & Hp & Hin & Hid).
    exists p. unfold main_pane. rewrite Hp. auto.
Qed.

End Selection.

(** ** Saving on blur, and loading what was saved *)

Section SaveAndReload.

Context {json : JSON}.

(** X6. The listener of [blur] and [beforeunload] never writes anything
    new: in every world the component can be in the slot already holds
    what it would save, so the event leaves the whole world as it is. *)
Theorem window_blur_changes_nothing (w : World) :
  reachable w -> step w WindowBlur = w.
Proof.
  intros Hw.
  destruct (reachable_invariants w Hw) as (_ & _ & _ & Hcommitted).
  destruct (slot_invariant w Hw) as [Hslot _].
  assert (Hsaved : saved (pages w) (storage w) = storage w).
  { unfold saved. destruct (pages w) as [ | p l ] eqn:E; [ reflexivity | ].
    symmetry. apply Hslot. discriminate. }
  rewrite step_eq. cbn [handler]. unfold run at 2.
  rewrite saveCurrentPage_run, Hsaved. cbn [snd].
  assert (Hsame : mkWorld (pages w) (currentPageId w) (sidebarOpen w)
                    (isMobile w) (isLoading w) (pagesChanged w)
                    (if truthy (currentPageId w) && negb (isLoading w)
                     then storage w else storage w)
                    (console w) (clock w) (ticks w) (innerWidth w) = w).
  { destruct w; cbn. now destruct (truthy _ && negb _). }
  rewrite Hsame. now apply commit_idle.
Qed.

(** A record that is a page with a truthy id, a truthy title and an array
    for content is normalized to that page only. *)
Lemma normalized_page_json (now : nat -> Z) (p p' : Page) :
  truthy (id p) = true -> truthy (title p) = true ->
  Array_isArray (Some (content p)) = true ->
  normalized now (page_json p) p' -> p' = p.
Proof.
  intros Hid Htitle Hcontent H. unfold normalized in H.
  destruct p as [pi pt pc], p' as [qi qt qc]. cbn in *.
  rewrite Hid, Htitle in H. destruct pc; try discriminate.
  destruct H as (H1 & H2 & H3). congruence.
Qed.

Lemma normalized_pages_json (now : nat -> Z) (ps ps' : list Page) :
  ids_nonempty ps -> titles_nonempty ps -> contents_are_arrays ps ->
  Forall2 (normalized now) (map page_json ps) ps' -> ps' = ps.
Proof.
  unfold ids_nonempty, titles_nonempty, contents_are_arrays.
  revert ps'. induction ps as [ | p ps IH ]; intros ps' Hi Ht Hc H;
    simpl in H; inversion H as [ | r q rs qs Hq Hrest ]; subst.
  - reflexivity.
  - inversion Hi; inversion Ht; inversion Hc; subst.
    f_equal; [ now apply (normalized_page_json now) | now apply IH ].
Qed.

(** X7. Saving and loading are inverse on the collections the component
    holds: where the codec gives back the collection it wrote, mounting
    again on the slot of a world with at least one page restores every
    page, in order, selects the first, logs nothing and leaves the slot
    as it is. *)
Theorem reload_restores_collection (w : World) (now : nat -> Z) (width : Z) :
  reachable w ->
  pages w <> [] ->
  JSON_parse (JSON_stringify (pages_json (pages w)))
  = Some (pages_json (pages w)) ->
  JSON_stringify (pages_json (pages w)) <> "" ->
  let w' := run mount (initial (storage w) now width) in
  pages w' = pages w
  /\ currentPageId w' = first_id (pages w)
  /\ storage w' = storage w
  /\ console w' = [].
Proof.
  intros Hw Hne Hround Hnonempty w'.
  destruct (reachable_invariants w Hw) as (Hids & Hcontents & _).
  pose proof (reachable_titles w Hw) as Htitles.
  pose proof (proj1 (slot_invariant w Hw) Hne) as Hslot.
  pose proof (load_run (initial (storage w) now width)) as H.
  cbn [initial storage] in H. unfold w'. rewrite Hslot in *.
  apply String.eqb_neq in Hnonempty. rewrite Hnonempty, Hround in H.
  destruct (pages w) as [ | p0 ps0 ]; [ congruence | ].
  cbn [pages_json map] in H.
  destruct H as [ (ps & k & Hl & Hnorm & _) | (k & _ & Hin) ].
  - cbn [initial clock] in Hnorm.
    apply (normalized_pages_json now (p0 :: ps0)) in Hnorm; try assumption.
    subst ps.
    destruct (mount_run _ _ Hl) as (_ & Hp & Hc & Hs & Hconsole & _).
    rewrite Hp, Hc, Hs, Hconsole. repeat split.
  - change (In JNull (map page_json (p0 :: ps0))) in Hin.
    apply in_map_iff in Hin. destruct Hin as (p & Hp & _). discriminate.
Qed.

End SaveAndReload.

(** ** Ids on a clock that does not repeat *)

Section ClockIds.

Context {json : JSON}.

Lemma Z_to_int_not_nil (n : Z) :
  Z.to_int n <> Decimal.Pos Decimal.Nil /\ Z.to_int n <> Decimal.Neg Decimal.Nil.
Proof.
  destruct n as [ | p | p ]; simpl; split; try discriminate;
    intros H; injection H as H; now apply DecimalPos.Unsigned.to_uint_nonnil in H.
Qed.

(** Different numbers have different decimal texts. *)
Lemma Number_toString_inj (a b : Z) :
  Number_toString a = Number_toString b -> a = b.
Proof.
  unfold Number_toString. intros H.
  apply (f_equal NilZero.int_of_string) in H.
  destruct (Z_to_int_not_nil a) as [Ha1 Ha2], (Z_to_int_not_nil b) as [Hb1 Hb2].
  rewrite !NilZero.isi in H by assumption.
  injection H as H. apply (f_equal Z.of_int) in H.
  now rewrite !DecimalZ.of_to in H.
Qed.

Lemma step_ids_from_clock (w : World) (ev : Event) :
  ids_from_clock w -> ids_from_clock (step w ev).
Proof.
  unfold ids_from_clock. intros H.
  destruct (step_frame ev w) as (_ & Hclock & _ & Hticks & _).
  rewrite Hclock, Hticks. pose proof (step_ids w ev) as Hids.
  assert (Hweaker : Forall (fun i => exists k, (k < S (ticks w))%nat
                       /\ i = JStr (Number_toString (clock w k)))
                      (map id (pages w))).
  { eapply Forall_impl; [ | exact H ]. intros i (k & Hk & Hi). eauto. }
  destruct ev; try (rewrite Hids; assumption).
  - rewrite Hids. apply Forall_app. split; [ exact Hweaker | ].
    constructor; [ | constructor ]. exists (ticks w). split; [ lia | reflexivity ].
  - rewrite Hids. rewrite Forall_map in *. now apply Forall_filter.
Qed.

Lemma fresh_on_injective_clock (w : World) (ev : Event) :
  (forall j k, clock w j = clock w k -> j = k) ->
  ids_from_clock w -> fresh_for w ev.
Proof.
  intros Hinj H. destruct ev; try exact I. cbn [fresh_for].
  intros Hin. unfold ids_from_clock in H. rewrite Forall_forall in H.
  destruct (H _ Hin) as (k & Hk & Heq). unfold next_id in Heq.
  injection Heq as Heq. apply Number_toString_inj, Hinj in Heq. lia.
Qed.

(** X8. On a clock that never gives the same answer twice, a component
    that found no saved data keeps its ids unique through every run of
    events: every id is the text of a different answer of the clock. *)
Theorem ids_unique_on_injective_clock (now : nat -> Z) (width : Z)
    (evs : list Event) :
  (forall j k, now j = now k -> j = k) ->
  let w := steps (run mount (initial None now width)) evs in
  ids_unique (pages w) /\ ids_from_clock w.
Proof.
  intros Hinj.
  set (w0 := run mount (initial None now width)).
  assert (H0 : ids_unique (pages w0) /\ ids_from_clock w0 /\ clock w0 = now).
  { destruct (mount_run _ _ (load_run (initial None now width)))
      as (_ & Hp & _).
    assert (Hframe : clock w0 = now /\ ticks w0 = 1%nat).
    { unfold w0, run, mount.
      rewrite (bind_ok _ _ _ _ _ (load_run (initial None now width))).
      rewrite (bind_ok _ _ _ (fallback (initial None now width)) tt)
        by reflexivity.
      rewrite (bind_ok _ _ _ _ _ (checkIfMobile_run _)).
      rewrite commit_run. split; reflexivity. }
    destruct Hframe as [Hclock Hticks].
    unfold ids_unique, ids_from_clock. fold w0 in Hp.
    rewrite Hp, Hclock, Hticks. cbn.
    split; [ | split; [ | reflexivity ] ].
    - constructor; [ intros [] | constructor ].
    - constructor; [ | constructor ].
      exists 0%nat. split; [ lia | reflexivity ]. }
  clearbody w0. revert w0 H0.
  induction evs as [ | ev evs IH ]; intros w0 (Hu & Hc & Hclock).
  - split; assumption.
  - rewrite steps_cons. apply IH. split; [ | split ].
    + apply step_ids_unique; [ exact Hu | ].
      apply fresh_on_injective_clock; [ now rewrite Hclock | exact Hc ].
    + now apply step_ids_from_clock.
    + now rewrite (proj1 (proj2 (step_frame ev w0))).
Qed.

End ClockIds.

(** ** The window and the sidebar *)

Section Sidebar.

Context {json : JSON}.

Lemma mount_frame (slot : option string) (now : nat -> Z) (width : Z) :
  isMobile (run mount (initial slot now width)) = (width <? 768)
  /\ innerWidth (run mount (initial slot now width)) = width
  /\ sidebarOpen (run mount (initial slot now width)) = negb (width <? 768).
Proof.
  assert (Hload : exists w1, load (initial slot now width) = (Ok tt, w1)
             /\ innerWidth w1 = width /\ sidebarOpen w1 = true).
  { pose proof (load_run (initial slot now width)) as H.
    cbn [initial storage] in H.
    destruct slot as [ s | ]; [ | eauto ].
    destruct (s =? "")%string; [ eauto | ].
    destruct (JSON_parse s) as [ [ | b | n | str | [ | r rs ] | props ] | ];
      eauto.
    destruct H as [ (ps & k & Hl & _) | (k & Hl & _) ]; eauto. }
  destruct Hload as (w1 & Hl & Hwidth & Hopen).
  unfold run, mount.
  rewrite (bind_ok _ _ _ _ _ Hl).
  rewrite (bind_ok _ _ w1 w1 tt) by (destruct w1; reflexivity).
  rewrite (bind_ok _ _ _ _ _ (checkIfMobile_run w1)).
  rewrite commit_run. cbn. rewrite Hwidth, Hopen.
  destruct (width <? 768); repeat split.
Qed.

(** X9. The component always knows whether the window is narrow: in every
    world it can be in, [isMobile] says whether the width the window had
    at the mount or at its last resize is below 768. *)
Theorem isMobile_follows_width (w : World) :
  reachable w -> isMobile w = (innerWidth w <? 768).
Proof.
  intros H. induction H as [ slot now width | w ev _ IH ].
  - destruct (mount_frame slot now width) as (Hm & Hw & _). now rewrite Hm, Hw.
  - destruct (step_frame ev w) as (_ & _ & _ & _ & Hm & Hw & _).
    rewrite Hm, Hw. destruct ev; try exact IH. reflexivity.
Qed.

(** X10. Only the menu button opens the sidebar: every other event leaves
    a closed sidebar closed; and adding a page or switching to another
    page in a narrow window closes it. *)
Theorem only_the_menu_opens_the_sidebar (w : World) (ev : Event) :
  (ev <> ToggleSidebar -> sidebarOpen w = false ->
   sidebarOpen (step w ev) = false)
  /\ (isMobile w = true -> sidebarOpen (step w AddNewPage) = false)
  /\ (forall pageId,
         isMobile w = true -> pageId <> currentPageId w ->
         sidebarOpen (step w (PageSwitch pageId)) = false).
Proof.
  refine (conj _ (conj _ _)).
  - intros Hev Hclosed.
    destruct (step_frame ev w) as (_ & _ & _ & _ & _ & _ & [ H | [ H | H ] ]);
      congruence.
  - intros Hm. rewrite step_eq. cbn [handler]. unfold run.
    rewrite addNewPage_run, commit_run. cbn. now rewrite Hm.
  - intros pageId Hm Hne. rewrite step_eq. cbn [handler]. unfold run.
    rewrite handlePageSwitch_run. apply strict_eq_false in Hne. rewrite Hne.
    destruct (truthy (currentPageId w) && negb (isLoading w));
      rewrite select_run, commit_run; cbn; now rewrite Hm.
Qed.

End Sidebar.

(** ** How events compose *)

Section Composition.

Context {json : JSON}.

Lemma with_content_twice (i c1 c2 : JSValue) (p : Page) :
  with_content i c2 (with_content i c1 p) = with_content i c2 p.
Proof.
  unfold with_content. destruct (strict_eq (id p) i) eqn:E; cbn [id].
  - now rewrite E.
  - now rewrite E.
Qed.

Lemma with_title_twice (i t1 t2 : JSValue) (p : Page) :
  with_title i t2 (with_title i t1 p) = with_title i t2 p.
Proof.
  unfold with_title. destruct (strict_eq (id p) i) eqn:E; cbn [id].
  - now rewrite E.
  - now rewrite E.
Qed.

(** X11. The last edit wins: two changes of the editor in a row leave the
    collection the second alone would leave, and so do two changes of the
    title of a page. *)
Theorem last_edit_wins (w : World) :
  (forall blocks1 blocks2,
      pages (steps w [EditorContentChange blocks1; EditorContentChange blocks2])
      = pages (step w (EditorContentChange blocks2)))
  /\ (forall pageId value1 value2,
         pages (steps w [TitleChange pageId value1; TitleChange pageId value2])
         = pages (step w (TitleChange pageId value2))).
Proof.
  split.
  - intros blocks1 blocks2. cbn [steps fold_left].
    rewrite (step_pages (step w _)), step_currentPageId.
    rewrite (proj1 (proj2 (proj2 (step_frame _ w)))).
    rewrite !step_pages.
    destruct (negb (truthy (currentPageId w)) || isLoading w); [ reflexivity | ].
    rewrite map_map. apply map_ext. intros p. apply with_content_twice.
  - intros pageId value1 value2. cbn [steps fold_left].
    rewrite !step_pages.
    destruct (truthy pageId); [ | reflexivity ].
    rewrite map_map. apply map_ext. intros p. apply with_title_twice.
Qed.

Lemma filter_map_ids (keep : JSValue -> bool) (f : Page -> Page)
    (ps : list Page) :
  (forall p, id (f p) = id p) ->
  filter (fun page => keep (id page)) (map f ps)
  = map f (filter (fun page => keep (id page)) ps).
Proof.
  intros Hf. induction ps as [ | p ps IH ]; simpl; [ reflexivity | ].
  rewrite Hf. destruct (keep (id p)); simpl; now rewrite IH.
Qed.

Lemma first_id_map (f : Page -> Page) (ps : list Page) :
  (forall p, id (f p) = id p) -> first_id (map f ps) = first_id ps.
Proof.
  intros Hf. destruct ps as [ | p ps ]; [ reflexivity | apply Hf ].
Qed.

(** X12. Renaming a page and deleting a page can be done in either order:
    the collection and the selection come out the same, so a page that
    was renamed keeps its new title and its id when another is deleted. *)
Theorem rename_and_delete_commute (w : World) (i j : JSValue) (t : string)
    (titleFocused : option string) :
  let renamed_first := steps w [TitleChange i t; DeletePage j titleFocused] in
  let deleted_first := steps w [DeletePage j titleFocused; TitleChange i t] in
  pages renamed_first = pages deleted_first
  /\ currentPageId renamed_first = currentPageId deleted_first.
Proof.
  cbn [steps fold_left]. split.
  - rewrite !step_pages. destruct (truthy i); [ | reflexivity ].
    apply (filter_map_ids (fun x => negb (strict_eq x j))).
    intros p. apply with_title_id.
  - rewrite !step_currentPageId, !step_pages.
    destruct (strict_eq (currentPageId w) j); [ | reflexivity ].
    destruct (truthy i); [ | reflexivity ].
    rewrite (filter_map_ids (fun x => negb (strict_eq x j)))
      by (intros p; apply with_title_id).
    apply first_id_map. intros p. apply with_title_id.
Qed.

(** X13. After [deletePage pageId] no page has that id, however many had
    it; deleting again changes nothing more in the collection; and
    deleting an id that no page has changes neither the collection nor,
    unless that id is the selection, the selection. *)
Theorem deletePage_is_thorough_and_idempotent (w : World) (pageId : JSValue)
    (titleFocused : option string) :
  let w' := step w (DeletePage pageId titleFocused) in
  ~ In pageId (map id (pages w'))
  /\ (forall again, pages (step w' (DeletePage pageId again)) = pages w')
  /\ (~ In pageId (map id (pages w)) ->
      pages w' = pages w
      /\ (currentPageId w <> pageId -> currentPageId w' = currentPageId w)).
Proof.
  intros w'.
  assert (Hpages : pages w'
            = filter (fun page => negb (strict_eq (id page) pageId)) (pages w)).
  { unfold w'. now rewrite step_pages. }
  assert (Hkeep : forall ps : list Page,
             ~ In pageId (map id ps) ->
             filter (fun page => negb (strict_eq (id page) pageId)) ps = ps).
  { induction ps as [ | p ps IH ]; simpl; intros H; [ reflexivity | ].
    destruct (strict_eq (id p) pageId) eqn:E; simpl.
    - apply strict_eq_true in E. exfalso. apply H. now left.
    - f_equal. apply IH. intros Hin. apply H. now right. }
  assert (Hgone : ~ In pageId (map id (pages w'))).
  { rewrite Hpages. intros H. apply in_map_iff in H.
    destruct H as (p & Hid & Hin). apply filter_In in Hin.
    destruct Hin as [_ Hin]. rewrite Hid, strict_eq_refl in Hin. discriminate. }
  refine (conj Hgone (conj _ _)).
  - intros again. rewrite step_pages. now apply Hkeep.
  - intros Habsent. split.
    + rewrite Hpages. now apply Hkeep.
    + intros Hne. unfold w'. rewrite step_currentPageId.
      apply strict_eq_false in Hne. now rewrite Hne.
Qed.

End Composition.

(** ** Slots the component did not write *)

Section ForeignSlots.

Context {json : JSON}.

(** X14. A [null] among the saved records makes the whole load fail: the
    read of its id throws, the [catch] logs that one failure, no record is
    kept, and the component starts with the default page, selected. *)
Theorem null_record_discards_the_slot (s : string) (recs : list JSValue)
    (now : nat -> Z) (width : Z) :
  s <> "" ->
  JSON_parse s = Some (JArr recs) ->
  In JNull recs ->
  let w := run mount (initial (Some s) now width) in
  console w = [("Failed to parse saved pages", TypeError)]
  /\ exists k,
       pages w = [default_page (now k)]
       /\ currentPageId w = id (default_page (now k))
       /\ storage w = Some (JSON_stringify (pages_json [default_page (now k)])).
Proof.
  intros Hs Hparse Hnull w.
  pose proof (load_run (initial (Some s) now width)) as H.
  cbn [initial storage] in H.
  apply String.eqb_neq in Hs. rewrite Hs, Hparse in H.
  destruct recs as [ | r rs ]; [ destruct Hnull | ].
  destruct H as [ (ps & k & _ & _ & _ & _ & Hnn) | (k & Hl & _) ].
  - rewrite Forall_forall in Hnn. now destruct (Hnn JNull Hnull).
  - destruct (mount_run _ _ Hl) as (_ & Hp & Hc & Hst & Hconsole & _).
    unfold w. rewrite Hp, Hc, Hst, Hconsole.
    split; [ reflexivity | ]. exists (k + 0)%nat. repeat split.
Qed.

Lemma validatePage_no_fields (r : JSValue) (w : World) :
  has_no_fields r ->
  validatePage r w = (Ok (untitled_page (clock w (ticks w))), advance 1 w).
Proof.
  intros (Hid & Htitle & Hcontent). unfold validatePage.
  rewrite Hid, Htitle, Hcontent. destruct w; reflexivity.
Qed.

Lemma mapM_validatePage_no_fields (recs : list JSValue) (w : World) :
  Forall has_no_fields recs ->
  mapM validatePage recs w
  = (Ok (map (fun k => untitled_page (clock w (k + ticks w)))
           (seq 0 (length recs))),
     advance (length recs) w).
Proof.
  intros H. revert w. induction H as [ | r recs Hr _ IH ]; intros w.
  - cbn. now rewrite advance_0.
  - cbn [mapM length seq map].
    rewrite (bind_ok _ _ _ _ _ (validatePage_no_fields r w Hr)).
    rewrite (bind_ok _ _ _ _ _ (IH (advance 1 w))).
    unfold ret. rewrite advance_advance, Nat.add_comm. f_equal. f_equal.
    rewrite <- seq_shift, map_map. cbn [advance clock ticks].
    f_equal. apply map_ext. intros k. now rewrite Nat.add_succ_r.
Qed.

(** X15. Saved values that are no records (numbers, strings, booleans,
    arrays, objects with other keys) load as pages all the same: one
    page titled "Untitled" with empty content for each, with the
    successive answers of the clock for ids, the first selected. *)
Theorem values_without_fields_load_as_untitled_pages (s : string)
    (recs : list JSValue) (now : nat -> Z) (width : Z) :
  s <> "" ->
  JSON_parse s = Some (JArr recs) ->
  recs <> [] ->
  Forall has_no_fields recs ->
  let w := run mount (initial (Some s) now width) in
  pages w = map (fun k => untitled_page (now k)) (seq 0 (length recs))
  /\ currentPageId w = id (untitled_page (now 0%nat))
  /\ console w = [].
Proof.
  intros Hs Hparse Hne Hall w.
  set (w0 := initial (Some s) now width).
  set (ps := map (fun k => untitled_page (now k)) (seq 0 (length recs))).
  assert (Hmap : mapM validatePage recs w0 = (Ok ps, advance (length recs) w0)).
  { rewrite (mapM_validatePage_no_fields recs w0 Hall). unfold ps.
    f_equal. f_equal. apply map_ext. intros k. cbn. now rewrite Nat.add_0_r. }
  assert (Hload : load w0 = (Ok tt, loaded ps (advance (length recs) w0))).
  { unfold load.
    rewrite (bind_ok _ _ w0 w0 (Some s)) by reflexivity.
    apply String.eqb_neq in Hs. rewrite Hs. cbn [negb].
    rewrite (bind_ok _ _ w0 (loaded ps (advance (length recs) w0)) true);
      [ reflexivity | ].
    unfold try_catch, load_try, JSON_parse_m. rewrite Hparse, bind_ret.
    destruct recs as [ | r rs ]; [ congruence | ].
    rewrite (bind_ok _ _ _ _ _ Hmap).
    destruct (advance _ w0); reflexivity. }
  destruct (mount_run _ _ Hload) as (_ & Hp & Hc & _ & Hconsole & _).
  unfold w. fold w0. rewrite Hp, Hc, Hconsole. cbn [loaded pages currentPageId].
  refine (conj eq_refl (conj _ eq_refl)).
  unfold ps. destruct recs; [ congruence | reflexivity ].
Qed.

End ForeignSlots.

(** ** Events that change nothing a user would see in the collection *)

Section Idle.

Context {json : JSON}.

Lemma page_with_id_unique (ps : list Page) (p : Page) :
  ids_unique ps -> In p ps -> page_with_id (id p) ps = Some p.
Proof.
  intros Hu Hin. apply in_split in Hin. destruct Hin as (l1 & l2 & ->).
  apply page_with_id_split.
  unfold ids_unique in Hu. rewrite map_app in Hu. simpl in Hu.
  apply NoDup_remove_2 in Hu. rewrite in_app_iff in Hu. tauto.
Qed.

(** Writing back to the selected page the content the collection has for
    it changes no page, where ids are unique and contents are arrays. *)
Lemma flush_is_identity (w : World) :
  ids_unique (pages w) -> contents_are_arrays (pages w) ->
  pages (flushed w) = pages w.
Proof.
  intros Hu Hc. cbn [flushed pages].
  rewrite <- (map_id (pages w)) at 2. apply map_ext_in. intros p Hin.
  destruct (strict_eq (id p) (currentPageId w)) eqn:E; [ | reflexivity ].
  apply strict_eq_true in E. rewrite <- E.
  rewrite (page_with_id_unique _ _ Hu Hin). cbn [option_map js_or].
  unfold contents_are_arrays in Hc. rewrite Forall_forall in Hc.
  specialize (Hc p Hin). destruct p as [pi pt pc]. cbn in *.
  destruct pc; try discriminate. reflexivity.
Qed.

Lemma resave_is_identity (w : World) :
  reachable w -> saved (pages w) (storage w) = storage w.
Proof.
  intros Hw. destruct (slot_invariant w Hw) as [Hslot _].
  unfold saved. destruct (pages w) as [ | p l ] eqn:E; [ reflexivity | ].
  symmetry. apply Hslot. discriminate.
Qed.

(** X16. Switching pages changes the selection and nothing of the
    collection: where ids are unique, after [handlePageSwitch] every page
    is as it was and the slot holds what it held. *)
Theorem switching_keeps_collection_and_slot (w : World) (pageId : JSValue) :
  reachable w ->
  ids_unique (pages w) ->
  pages (step w (PageSwitch pageId)) = pages w
  /\ storage (step w (PageSwitch pageId)) = storage w
  /\ currentPageId (step w (PageSwitch pageId)) = pageId.
Proof.
  intros Hw Hu.
  destruct (reachable_invariants w Hw) as (_ & Hc & _ & Hcommitted).
  pose proof (flush_is_identity w Hu Hc) as Hflush.
  pose proof (resave_is_identity w Hw) as Hsave.
  refine (conj _ (conj _ _)).
  - rewrite step_pages.
    destruct (strict_eq pageId (currentPageId w)); [ reflexivity | ].
    destruct (truthy (currentPageId w) && negb (isLoading w));
      [ exact Hflush | reflexivity ].
  - rewrite step_eq. cbn [handler]. unfold run.
    rewrite handlePageSwitch_run.
    destruct (strict_eq pageId (currentPageId w)).
    + rewrite commit_run. cbn. now rewrite Hcommitted.
    + destruct (truthy (currentPageId w) && negb (isLoading w));
        rewrite select_run, commit_run; cbn [snd storage pagesChanged pages].
      * cbn [flushed storage pagesChanged]. fold (pages (flushed w)).
        change (map _ (pages w)) with (pages (flushed w)).
        rewrite Hflush, Hsave. exact Hsave.
      * now rewrite Hcommitted.
  - now rewrite step_currentPageId.
Qed.

(** X17. Leaving the title input without having changed the title changes
    nothing at all: where ids are unique and the input shows the title of
    the selected page, the blur leaves the whole world as it is. *)
Theorem blur_of_unchanged_title_changes_nothing (w : World) (page : Page)
    (shown : string) :
  reachable w ->
  ids_unique (pages w) ->
  currentPage w = Some page ->
  title page = JStr shown ->
  step w (TitleBlur shown) = w.
Proof.
  intros Hw Hu Hcur Htitle.
  destruct (reachable_invariants w Hw) as (_ & _ & _ & Hcommitted).
  destruct (reachable_page w _ _ Hw Hcur) as [Htruthy _].
  destruct (page_with_id_found _ _ _ Hcur) as [Hin Hid].
  pose proof (reachable_titles w Hw) as Ht.
  unfold titles_nonempty in Ht. rewrite Forall_forall in Ht.
  specialize (Ht page Hin). rewrite Htitle in Ht.
  assert (Hshown : title_or_untitled shown = JStr shown).
  { rewrite title_or_untitled_eq. simpl in Ht.
    apply negb_true_iff in Ht. now rewrite Ht. }
  assert (Hmap : map (fun p : Page =>
                        if strict_eq (id p) (currentPageId w)
                        then mkPage (id p)
                               (js_or (Some (title_or_untitled shown))
                                  (JStr "Untitled"))
                               (content p)
                        else p) (pages w) = pages w).
  { rewrite <- (map_id (pages w)) at 2. apply map_ext_in. intros p Hp.
    destruct (strict_eq (id p) (currentPageId w)) eqn:E; [ | reflexivity ].
    apply strict_eq_true in E. rewrite <- Hid in E.
    assert (Hsame : p = page).
    { pose proof (page_with_id_unique _ _ Hu Hp) as H1.
      pose proof (page_with_id_unique _ _ Hu Hin) as H2.
      rewrite E in H1. congruence. }
    subst p. rewrite title_or_untitled_idem, Hshown, <- Htitle.
    now destruct page. }
  rewrite step_eq. cbn [handler]. unfold run.
  rewrite handleTitleBlur_run, Htruthy, updatePageTitle_run, Htruthy.
  rewrite commit_run. cbn [snd pages currentPageId sidebarOpen isMobile
    isLoading pagesChanged storage console clock ticks innerWidth].
  rewrite Hmap, (resave_is_identity w Hw).
  destruct w; cbn in *. now subst.
Qed.

(** X18. [addNewPage] puts one page after the pages there are, which it
    leaves as they were: titled "Untitled", with empty content, for which
    the editor starts from its own empty document; it selects that page
    and the slot then holds the longer collection.  Where no page had the
    new id, the page shown is the new one. *)
Theorem addNewPage_appends_selects_and_saves (w : World) :
  let w' := step w AddNewPage in
  let page := mkPage (next_id w) (JStr "Untitled") (JArr []) in
  pages w' = (pages w ++ [page])%list
  /\ currentPageId w' = id page
  /\ storage w' = Some (JSON_stringify (pages_json (pages w')))
  /\ initialContent (content page) = None
  /\ (fresh_for w AddNewPage -> main_pane w' = PagePane page).
Proof.
  intros w' page.
  assert (Hpages : pages w' = (pages w ++ [page])%list).
  { unfold w'. now rewrite step_pages. }
  assert (Hcur : currentPageId w' = id page).
  { unfold w'. now rewrite step_currentPageId. }
  refine (conj Hpages (conj Hcur (conj _ (conj eq_refl _)))).
  - unfold w'. rewrite step_eq. cbn [handler]. unfold run.
    rewrite addNewPage_run, commit_run. cbn. unfold saved.
    destruct (pages w); reflexivity.
  - intros Hfresh. unfold main_pane, currentPage. rewrite Hcur, Hpages.
    fold (page_with_id (id page) (pages w ++ [page])%list).
    now rewrite (page_with_id_split (pages w) [] page Hfresh).
Qed.

End Idle.

(** ** Updates and the page they reach *)

Section Addressing.

Context {json : JSON}.

(** X19. What the editor reports is what the selected page holds from
    then on: in every world the component can be in, after a change of
    the editor the page shown is the selected page with the reported
    blocks for content and its id and title as before, and the slot holds
    the collection with that page. *)
Theorem editor_change_reaches_selected_page (w : World) (page : Page)
    (blocks : list JSValue) :
  reachable w ->
  currentPage w = Some page ->
  let w' := step w (EditorContentChange blocks) in
  main_pane w' = PagePane (mkPage (id page) (title page) (JArr blocks))
  /\ storage w' = Some (JSON_stringify (pages_json (pages w'))).
Proof.
  intros Hw Hcur w'.
  destruct (reachable_invariants w Hw) as (_ & _ & Hload & _).
  destruct (reachable_page w _ _ Hw Hcur) as [Htruthy _].
  assert (Hpages : pages w'
            = map (with_content (currentPageId w) (JArr blocks)) (pages w)).
  { unfold w'. rewrite step_pages, Htruthy, Hload. reflexivity. }
  assert (Hfind : currentPage w'
            = Some (mkPage (id page) (title page) (JArr blocks))).
  { unfold currentPage. unfold w' at 1. rewrite step_currentPageId, Hpages.
    now apply page_with_id_recontent. }
  split.
  - unfold main_pane. now rewrite Hfind.
  - unfold w'. apply step_persists.
    + unfold run. cbn [handler]. rewrite handleEditorContentChange_run.
      rewrite Htruthy, Hload. reflexivity.
    + fold w'. intros H. unfold currentPage in Hfind. rewrite H in Hfind.
      discriminate.
Qed.

(** X20. An update addressed to an id that no page has changes no page:
    a new title for such an id, and the blocks of the editor when the
    selection is such an id, leave the collection as it is. *)
Theorem update_of_unlisted_id_changes_no_page (w : World) :
  (forall pageId value,
      ~ In pageId (map id (pages w)) ->
      pages (step w (TitleChange pageId value)) = pages w)
  /\ (forall blocks,
         ~ In (currentPageId w) (map id (pages w)) ->
         pages (step w (EditorContentChange blocks)) = pages w).
Proof.
  assert (Hmap : forall (f : Page -> Page) (i : JSValue),
             (forall p, strict_eq (id p) i = false -> f p = p) ->
             ~ In i (map id (pages w)) -> map f (pages w) = pages w).
  { intros f i Hf Hi. rewrite <- (map_id (pages w)) at 2.
    apply map_ext_in. intros p Hp. apply Hf. apply strict_eq_false.
    intros E. apply Hi. apply in_map_iff. eauto. }
  split.
  - intros pageId value Hi. rewrite step_pages.
    destruct (truthy pageId); [ | reflexivity ].
    apply (Hmap _ pageId); [ | exact Hi ].
    intros p E. unfold with_title. now rewrite E.
  - intros blocks Hi. rewrite step_pages.
    destruct (negb (truthy (currentPageId w)) || isLoading w); [ reflexivity | ].
    apply (Hmap _ (currentPageId w)); [ | exact Hi ].
    intros p E. unfold with_content. now rewrite E.
Qed.

End Addressing.

(** ** More of the component on the reference codec *)

Import MoreExamples.

Lemma two_pages_reachable_by_user : reachable_by_user two_pages.
Proof.
  assert (H : two_pages
              = run mount
                  (initial (Some (RefJSON.stringify (pages_json [plans; notes])))
                     every_second 1024)) by reflexivity.
  rewrite H. constructor.
Defined.

Lemma two_pages_unique : ids_unique (pages two_pages).
Proof.
  unfold ids_unique. cbn. constructor.
  - intros [ H | [] ]. discriminate.
  - constructor; [ intros [] | constructor ].
Defined.

Lemma every_second_injective (j k : nat) : every_second j = every_second k -> j = k.
Proof. unfold every_second. lia. Defined.

(** X1 on the example with two pages. *)
Lemma slot_follows_collection_witness :
  (reachable two_pages /\ pages two_pages <> [])
  /\ storage two_pages = Some (JSON_stringify (pages_json (pages two_pages))).
Proof.
  assert (Hne : pages two_pages <> []) by discriminate.
  split; [ split; [ exact two_pages_reachable | exact Hne ] | ].
  exact (slot_follows_collection two_pages two_pages_reachable Hne).
Defined.

(** X2 on the example with two pages, both deleted. *)
Lemma slot_is_never_emptied_witness :
  reachable two_pages
  /\ holds_a_collection
       (storage (steps two_pages
                   [DeletePage (JStr "1") None; DeletePage (JStr "2") None])).
Proof.
  split; [ exact two_pages_reachable | ].
  exact (proj2 (slot_is_never_emptied two_pages two_pages_reachable) _).
Defined.

(** X3 on the example with two pages. *)
Lemma console_has_at_most_the_load_failure_witness :
  reachable two_pages
  /\ console (step two_pages AddNewPage) = console two_pages.
Proof.
  split; [ exact two_pages_reachable | ].
  exact (proj2 (console_has_at_most_the_load_failure two_pages
                  two_pages_reachable) AddNewPage).
Defined.

(** X4 on the example with two pages. *)
Lemma titles_are_never_empty_witness :
  reachable two_pages /\ titles_nonempty (pages two_pages).
Proof.
  split; [ exact two_pages_reachable | ].
  exact (proj1 (titles_are_never_empty two_pages two_pages_reachable)).
Defined.

(** X5 on the example with two pages. *)
Lemma selected_page_exists_unless_empty_witness :
  reachable_by_user two_pages
  /\ (main_pane two_pages = NoPageSelected <-> pages two_pages = []).
Proof.
  split; [ exact two_pages_reachable_by_user | ].
  exact (proj1 (selected_page_exists_unless_empty two_pages
                  two_pages_reachable_by_user)).
Defined.

(** X6 on the example with two pages. *)
Lemma window_blur_changes_nothing_witness :
  reachable two_pages /\ step two_pages WindowBlur = two_pages.
Proof.
  split; [ exact two_pages_reachable | ].
  exact (window_blur_changes_nothing two_pages two_pages_reachable).
Defined.

(** X7 on the example with two pages, mounted again later in a narrow
    window. *)
Lemma reload_restores_collection_witness :
  (reachable two_pages
   /\ pages two_pages <> []
   /\ JSON_parse (JSON_stringify (pages_json (pages two_pages)))
      = Some (pages_json (pages two_pages))
   /\ JSON_stringify (pages_json (pages two_pages)) <> "")
  /\ pages (run mount (initial (storage two_pages) same_millisecond 500))
     = pages two_pages.
Proof.
  assert (Hne : pages two_pages <> []) by discriminate.
  assert (Hround : JSON_parse (JSON_stringify (pages_json (pages two_pages)))
                   = Some (pages_json (pages two_pages))) by reflexivity.
  assert (Hs : JSON_stringify (pages_json (pages two_pages)) <> "")
    by discriminate.
  split; [ repeat split; try assumption; exact two_pages_reachable | ].
  exact (proj1 (reload_restores_collection two_pages same_millisecond 500
                  two_pages_reachable Hne Hround Hs)).
Defined.

(** X8 on a clock that advances by a second. *)
Lemma ids_unique_on_injective_clock_witness :
  (forall j k, every_second j = every_second k -> j = k)
  /\ ids_unique
       (pages (steps (run mount (initial None every_second 1024))
                 [AddNewPage; AddNewPage])).
Proof.
  split; [ exact every_second_injective | ].
  exact (proj1 (ids_unique_on_injective_clock every_second 1024
                  [AddNewPage; AddNewPage] every_second_injective)).
Defined.

(** X9 on the example with two pages. *)
Lemma isMobile_follows_width_witness :
  reachable two_pages
  /\ isMobile (step two_pages (Resize 600))
     = (innerWidth (step two_pages (Resize 600)) <? 768).
Proof.
  split; [ exact two_pages_reachable | ].
  exact (isMobile_follows_width _
           (reachable_step two_pages (Resize 600) two_pages_reachable)).
Defined.

(** X14 on a slot whose second record is [null]. *)
Lemma null_record_discards_the_slot_witness :
  (null_slot <> "" /\ JSON_parse null_slot = Some (JArr null_records)
   /\ In JNull null_records)
  /\ console (run mount (initial (Some null_slot) every_second 1024))
     = [("Failed to parse saved pages", TypeError)].
Proof.
  assert (Hs : null_slot <> "") by discriminate.
  assert (Hparse : JSON_parse null_slot = Some (JArr null_records))
    by reflexivity.
  assert (Hin : In JNull null_records) by (right; left; reflexivity).
  split; [ repeat split; assumption | ].
  exact (proj1 (null_record_discards_the_slot null_slot null_records
                  every_second 1024 Hs Hparse Hin)).
Defined.

(** X15 on a slot that holds a number, a string and an empty object. *)
Lemma values_without_fields_load_as_untitled_pages_witness :
  (plain_slot <> "" /\ JSON_parse plain_slot = Some (JArr plain_records)
   /\ plain_records <> [] /\ Forall has_no_fields plain_records)
  /\ pages (run mount (initial (Some plain_slot) every_second 1024))
     = [untitled_page 1700000000000; untitled_page 1700000001000;
        untitled_page 1700000002000].
Proof.
  assert (Hs : plain_slot <> "") by discriminate.
  assert (Hparse : JSON_parse plain_slot = Some (JArr plain_records))
    by reflexivity.
  assert (Hne : plain_records <> []) by discriminate.
  assert (Hall : Forall has_no_fields plain_records).
  { repeat constructor. }
  split; [ repeat split; assumption | ].
  exact (proj1 (values_without_fields_load_as_untitled_pages plain_slot
                  plain_records every_second 1024 Hs Hparse Hne Hall)).
Defined.

(** X16 on the example with two pages. *)
Lemma switching_keeps_collection_and_slot_witness :
  (reachable two_pages /\ ids_unique (pages two_pages))
  /\ pages (step two_pages (PageSwitch (JStr "2"))) = pages two_pages
  /\ storage (step two_pages (PageSwitch (JStr "2"))) = storage two_pages
  /\ currentPageId (step two_pages (PageSwitch (JStr "2"))) = JStr "2".
Proof.
  split; [ split; [ exact two_pages_reachable | exact two_pages_unique ] | ].
  exact (switching_keeps_collection_and_slot two_pages (JStr "2")
           two_pages_reachable two_pages_unique).
Defined.

(** X17 on the example with two pages. *)
Lemma blur_of_unchanged_title_changes_nothing_witness :
  (reachable two_pages /\ ids_unique (pages two_pages)
   /\ currentPage two_pages = Some plans /\ title plans = JStr "Plans")
  /\ step two_pages (TitleBlur "Plans") = two_pages.
Proof.
  split.
  - repeat split; [ exact two_pages_reachable | exact two_pages_unique ].
  - exact (blur_of_unchanged_title_changes_nothing two_pages plans "Plans"
             two_pages_reachable two_pages_unique eq_refl eq_refl).
Defined.

(** X19 on the example with two pages. *)
Lemma editor_change_reaches_selected_page_witness :
  (reachable two_pages /\ currentPage two_pages = Some plans)
  /\ main_pane (step two_pages (EditorContentChange [block "buy bread"]))
     = PagePane (mkPage (JStr "1") (JStr "Plans") (JArr [block "buy bread"])).
Proof.
  split; [ split; [ exact two_pages_reachable | reflexivity ] | ].
  exact (proj1 (editor_change_reaches_selected_page two_pages plans
                  [block "buy bread"] two_pages_reachable eq_refl)).
Defined.
